(** * SNAPLib/WGsim.cpp: wgsim read identifiers

    A shallow embedding of [wgsimReadMisaligned] and [wgsimGenerateIDString]
    and the properties of the identifier decoder, the misalignment test and
    the identifier generator.

    Conventions of the embedding.
    - [unsigned] is a [Z] in [0, 2^32); every addition and subtraction of the
      source is followed by its reduction modulo [2^32], written [u32].
    - A C string is the [list ascii] of its characters before the terminating
      NUL; a [char *] into the local buffer [id] is the [Z] offset from the
      start of [id], so that [id - 1] is [-1].
    - [stderr] is the list of diagnostics printed, one constructor of [Diag]
      per [fprintf] of the source.
    - The caller's memory is a map from addresses to [unsigned] values;
      [lowOut] and [highOut] are optional addresses ([None] is [NULL]). *)

From Stdlib Require Import ZArith List Ascii String Bool Lia.
From Stdlib Require Import DecimalString.
From Stdlib Require DecimalZ DecimalPos DecimalFacts.
Import ListNotations.

Local Open Scope Z_scope.


(** ** Machine integers *)

Module Unsigned.

Definition modulus : Z := 2 ^ 32.

(** Wrap-around of an [unsigned] result. *)
Definition u32 (z : Z) : Z := z mod modulus.

(** The [int] with the same 32 bits as an [unsigned]: what [%d] prints when
    it is handed an [unsigned] argument. *)
Definition to_int (u : Z) : Z := if u <? 2 ^ 31 then u else u - modulus.

Definition in_range (z : Z) : Prop := 0 <= z < modulus.

End Unsigned.

Import Unsigned.

(** ** C strings and the C library functions the source calls *)

Module CString.

Definition NUL : ascii := "000"%char.

Definition str (s : string) : list ascii := list_ascii_of_string s.

(** The characters of a buffer that a C string function sees: those before
    the first NUL. *)
Fixpoint c_str (buf : list ascii) : list ascii :=
  match buf with
  | [] => []
  | c :: rest => if Ascii.eqb c NUL then [] else c :: c_str rest
  end.

(** [strchr(s, c)], as the offset of the first [c] in [s]; [None] is NULL. *)
Fixpoint strchr (s : list ascii) (c : ascii) : option Z :=
  match s with
  | [] => None
  | x :: rest =>
      if Ascii.eqb x c then Some 0 else option_map Z.succ (strchr rest c)
  end.

(** The string that starts at offset [p] of [s]. *)
Definition at_offset (s : list ascii) (p : Z) : list ascii :=
  skipn (Z.to_nat p) s.

Definition isspace (c : ascii) : bool :=
  let n := nat_of_ascii c in
  (Nat.eqb n 32 || (Nat.leb 9 n && Nat.leb n 13))%bool.

Definition isdigit (c : ascii) : bool :=
  let n := nat_of_ascii c in (Nat.leb 48 n && Nat.leb n 57)%bool.

Definition digit_value (c : ascii) : Z := Z.of_nat (nat_of_ascii c) - 48.

Fixpoint skip_space (s : list ascii) : list ascii :=
  match s with
  | c :: rest => if isspace c then skip_space rest else s
  | [] => []
  end.

Fixpoint read_digits (acc : Z) (s : list ascii) : Z :=
  match s with
  | c :: rest =>
      if isdigit c then read_digits (10 * acc + digit_value c) rest else acc
  | [] => acc
  end.

(** The conversion of [%d] is that of [strtol], to a [long] of 64 bits: a
    number beyond the range of a [long] is read as [LONG_MAX] or
    [LONG_MIN]. *)
Definition LONG_MAX : Z := 2 ^ 63 - 1.
Definition LONG_MIN : Z := - 2 ^ 63.

Definition saturate (z : Z) : Z := Z.max LONG_MIN (Z.min LONG_MAX z).

(** [sscanf(s, "%d", &x)] with [x] an [unsigned]: white space is skipped, an
    optional sign is read, then the longest run of decimal digits; the
    conversion succeeds ([Some], the call returns 1) when there is at least
    one digit.  The number read is converted as by [strtol], and the 32 bits
    stored in [x] are the low 32 bits of that [long]. *)
Definition sscanf_d (s : list ascii) : option Z :=
  let s1 := skip_space s in
  let '(negative, s2) :=
    match s1 with
    | c :: rest =>
        if Ascii.eqb c "-" then (true, rest)
        else if Ascii.eqb c "+" then (false, rest)
        else (false, s1)
    | [] => (false, s1)
    end in
  match s2 with
  | c :: _ =>
      if isdigit c
      then let n := read_digits 0 s2 in
           Some (u32 (saturate (if negative then - n else n)))
      else None
  | [] => None
  end.

(** What [sprintf] writes for [%d]. *)
Definition print_d (z : Z) : list ascii :=
  str (NilZero.string_of_int (Z.to_int z)).

End CString.

Import CString.

(** ** The collaborators of WGsim.cpp *)

(** Modelled from the spec: [Read], declared in Read.h, which is not part of
    the sources.  Only its identifier is used here, the RawIdentifier of the
    spec: a byte string owned by the caller, given by [getId] and
    [getIdLength], not NUL terminated. *)
Record Read := { getId : list ascii }.

Definition getIdLength (read : Read) : Z :=
  Z.of_nat (List.length (getId read)).

(** Modelled from the spec: [Genome::Contig], declared in Genome.h, which is
    not part of the sources; the fields this file reads, the name and the
    offset of the contig in the genome. *)
Record Contig := { name : list ascii; beginningOffset : Z }.

(** Modelled from the spec: [Genome], declared in Genome.h, which is not
    part of the sources.  It is kept abstract: any look-up of a contig's
    offset in the whole genome by name, [None] when [getOffsetOfContig]
    returns false. *)
Record Genome := { getOffsetOfContig : list ascii -> option Z }.

(** For the examples: a genome given by the list of its contigs, the first
    contig of a name being the one found. *)
Fixpoint lookupContig (contigs : list Contig) (n : list ascii) : option Z :=
  match contigs with
  | [] => None
  | c :: rest =>
      if list_eq_dec ascii_dec n (name c)
      then Some (beginningOffset c) else lookupContig rest n
  end.

Definition genomeOf (contigs : list Contig) : Genome :=
  {| getOffsetOfContig := lookupContig contigs |}.

(** ** Diagnostics *)

Inductive Diag : Type :=
| ReadIdTooLong
| MissingColon (id : list ascii)
| MissingUnderscore1 (id : list ascii)
| MissingUnderscore2 (id : list ascii)
| MissingUnderscore3 (id : list ascii)
| BadOffset1 (id : list ascii)
| BadOffset2 (id : list ascii)
| ContigNameTooLong (id : list ascii)
| UnknownContig (contigName : list ascii).

Definition newline : list ascii := ["010"%char].

(** The text each diagnostic puts on [stderr].  For [ReadIdTooLong] the
    source prints the local buffer before anything was copied into it, so
    only the fixed part of the line is given. *)
Definition diag_text (d : Diag) : list ascii :=
  match d with
  | ReadIdTooLong => str "Got a read ID that was too long! It starts with "
  | MissingColon id =>
      str "Failed to parse read id '" ++ id
        ++ str "', couldn't find a colon." ++ newline
  | MissingUnderscore1 id =>
      str "Failed to parse read id '" ++ id
        ++ str "', couldn't find underscore before colon." ++ newline
  | MissingUnderscore2 id =>
      str "Failed to parse read id '" ++ id
        ++ str "', couldn't find second underscore before colon." ++ newline
  | MissingUnderscore3 id =>
      str "Failed to parse read id '" ++ id
        ++ str "', couldn't find third underscore before colon." ++ newline
  | BadOffset1 id =>
      str "Failed to parse read id '" ++ id
        ++ str "', couldn't parse offset1." ++ newline
  | BadOffset2 id =>
      str "Failed to parse read id '" ++ id
        ++ str "', couldn't parse offset2." ++ newline
  | ContigNameTooLong id =>
      str "Contig name too big or misparsed, '" ++ id ++ str "'" ++ newline
  | UnknownContig contigName =>
      str "Couldn't find contig name '" ++ contigName
        ++ str "' in the genome." ++ newline
  end.

(** ** wgsimReadMisaligned *)

(** The loop [for (q = p - 1; q >= id && *q != '_'; q--) {}]: [scanBack id n]
    is the final [q] when [n] characters, those at offsets [n-1 .. 0], are
    still to be looked at. *)
Fixpoint scanBack (id : list ascii) (n : nat) : Z :=
  match n with
  | O => -1
  | S m =>
      if Ascii.eqb (nth m id NUL) "_" then Z.of_nat m else scanBack id m
  end.

Definition underscoreBefore (id : list ascii) (p : Z) : Z :=
  scanBack id (Z.to_nat p).

Definition contigNameMaxSize : Z := 200.

(** The exits [fprintf(stderr, ...); return false;] are the left summand. *)
Definition Parse (A : Type) : Type := (Diag + A)%type.

Definition ok {A : Type} (a : A) : Parse A := inr a.
Definition fail {A : Type} (d : Diag) : Parse A := inl d.

Definition bind {A B : Type} (m : Parse A) (k : A -> Parse B) : Parse B :=
  match m with
  | inl d => inl d
  | inr a => k a
  end.

Notation "x <- m ;; k" := (bind m (fun x => k))
  (at level 61, m at next level, right associativity).

Definition check (failed : bool) (d : Diag) : Parse unit :=
  if failed then fail d else ok tt.

(** The pointers into [id] that lines 63-103 compute. *)
Record Underscores := {
  firstColon : Z;
  underscoreBeforeColon : Z;
  secondUnderscoreBeforeColon : Z;
  thirdUnderscoreBeforeColon : Z
}.

(** Lines 63-103: the first colon, then three underscores going back. *)
Definition findUnderscores (id : list ascii) : Parse Underscores :=
  match strchr id ":" with
  | None => fail (MissingColon id)
  | Some firstColon =>
    let underscoreBeforeColon := underscoreBefore id firstColon in
    _ <- check (underscoreBeforeColon <? 0) (MissingUnderscore1 id) ;;
    let secondUnderscoreBeforeColon :=
      underscoreBefore id underscoreBeforeColon in
    _ <- check (secondUnderscoreBeforeColon <? 0) (MissingUnderscore2 id) ;;
    let thirdUnderscoreBeforeColon :=
      underscoreBefore id secondUnderscoreBeforeColon in
    _ <- check (thirdUnderscoreBeforeColon <? 0) (MissingUnderscore3 id) ;;
    ok {| firstColon := firstColon;
          underscoreBeforeColon := underscoreBeforeColon;
          secondUnderscoreBeforeColon := secondUnderscoreBeforeColon;
          thirdUnderscoreBeforeColon := thirdUnderscoreBeforeColon |}
  end.

(** Lines 105-118: [offset1] is read after the third underscore; [offset2]
    is [offset1] when the other two underscores touch, and is read after the
    second underscore otherwise. *)
Definition parseOffsets (id : list ascii) (u : Underscores) : Parse (Z * Z) :=
  match sscanf_d (at_offset id (thirdUnderscoreBeforeColon u + 1)) with
  | None => fail (BadOffset1 id)
  | Some offset1 =>
      if underscoreBeforeColon u =? secondUnderscoreBeforeColon u + 1
      then ok (offset1, offset1)
      else
        match sscanf_d (at_offset id (secondUnderscoreBeforeColon u + 1)) with
        | None => fail (BadOffset2 id)
        | Some offset2 => ok (offset1, offset2)
        end
  end.

(** Lines 126-143: the contig name is what precedes the third underscore;
    its offset in the genome is looked up. *)
Definition lookupContigName (genome : Genome) (id : list ascii)
    (u : Underscores) : Parse (list ascii * Z) :=
  let contigNameLen := thirdUnderscoreBeforeColon u in
  _ <- check (contigNameMaxSize <=? contigNameLen) (ContigNameTooLong id) ;;
  let contigName := firstn (Z.to_nat contigNameLen) id in
  match getOffsetOfContig genome contigName with
  | None => fail (UnknownContig contigName)
  | Some offsetOfContig => ok (contigName, offsetOfContig)
  end.

(** What the decoding part of the function has in its locals when it gets
    through: the contig name, the two offsets as read from the identifier,
    and the contig's offset in the genome. *)
Record Decoded := {
  contigName : list ascii;
  offset1 : Z;
  offset2 : Z;
  offsetOfContig : Z
}.

Definition decodedWith (offsets : Z * Z) (contig : list ascii * Z)
  : Decoded :=
  {| contigName := fst contig; offset1 := fst offsets;
     offset2 := snd offsets; offsetOfContig := snd contig |}.

(** Lines 63-143, in the order of the source. *)
Definition decodeId (genome : Genome) (id : list ascii) : Parse Decoded :=
  u <- findUnderscores id ;;
  offsets <- parseOffsets id u ;;
  contig <- lookupContigName genome id u ;;
  ok (decodedWith offsets contig).

(** Lines 145-149: the offsets made absolute and zero based, and ordered. *)
Definition absOffset (offset offsetOfContig : Z) : Z :=
  u32 (u32 (offset + offsetOfContig) - 1).

Definition intervalLow (d : Decoded) : Z :=
  Z.min (absOffset (offset1 d) (offsetOfContig d))
        (absOffset (offset2 d) (offsetOfContig d)).

Definition intervalHigh (d : Decoded) : Z :=
  Z.max (absOffset (offset1 d) (offsetOfContig d))
        (absOffset (offset2 d) (offsetOfContig d)).

(** Line 155: [genomeLocation > high + maxK || genomeLocation + maxK < low],
    [maxK] being an [int] that the additions convert to [unsigned]. *)
Definition misaligned (genomeLocation low high maxK : Z) : bool :=
  (u32 (high + u32 maxK) <? genomeLocation)
  || (u32 (genomeLocation + u32 maxK) <? low).

(** The caller's memory. *)
Definition Mem : Type := Z -> Z.

Definition store (m : Mem) (addr v : Z) : Mem :=
  fun a => if a =? addr then v else m a.

(** [if (out != NULL) *out = v;] *)
Definition storeOut (m : Mem) (out : option Z) (v : Z) : Mem :=
  match out with
  | None => m
  | Some addr => store m addr v
  end.

(** How a call ends. *)
Inductive Outcome : Type :=
| Exited (status : Z) (err : list Diag)
| Returned (result : bool) (err : list Diag) (mem : Mem).

(** Modelled from the spec: [soft_exit], declared in exit.h, which is not
    part of the sources.  The reference behaviour terminates the process;
    the call does not come back, and the memory of the caller is gone with
    the process. *)
Definition soft_exit (status : Z) (err : list Diag) : Outcome :=
  Exited status err.

Definition idBufferSize : Z := 1024.

(** Lines 55-62: the identifier copied into the local buffer [id] by
    [strncpy], and terminated. *)
Definition idBuffer (read : Read) : list ascii :=
  let toCopy := Z.min (getIdLength read) (idBufferSize - 1) in
  c_str (firstn (Z.to_nat toCopy) (getId read)).

Definition wgsimReadMisaligned (read : Read) (genomeLocation : Z)
    (genome : Genome) (maxK : Z) (lowOut highOut : option Z) (mem : Mem)
  : Outcome :=
  if idBufferSize - 1 <? getIdLength read
  then soft_exit 1 [ReadIdTooLong]
  else
    let id := idBuffer read in
    match decodeId genome id with
    | inl d => Returned false [d] mem
    | inr d =>
        let high := intervalHigh d in
        let low := intervalLow d in
        let mem1 := storeOut mem lowOut low in
        let mem2 := storeOut mem1 highOut high in
        Returned (misaligned genomeLocation low high maxK) [] mem2
    end.

(** ** wgsimGenerateIDString *)

(** [sprintf(outputBuffer, "%s_%d_%d_0::0:0_2:0:a0_0/%d", contig->name,
    offsetInContig + 1, offsetInContig + readLength, firstHalf ? 1 : 2)];
    the result is the C string left in [outputBuffer]. *)
Definition wgsimGenerateIDString (contig : Contig)
    (offsetInContig readLength : Z) (firstHalf : bool) : list ascii :=
  c_str (name contig) ++ str "_"
    ++ print_d (to_int (u32 (offsetInContig + 1))) ++ str "_"
    ++ print_d (to_int (u32 (offsetInContig + readLength)))
    ++ str "_0::0:0_2:0:a0_0/"
    ++ print_d (if firstHalf then 1 else 2).

(** ** The overloads *)

(** Modelled from the spec: [GenomeIndex], declared in GenomeIndex.h, which
    is not part of the sources; only [getGenome] is used. *)
Record GenomeIndex := { getGenome : Genome }.

(** Lines 34-38: the overload that is given the index of the genome. *)
Definition wgsimReadMisaligned_index (read : Read) (location : Z)
    (index : GenomeIndex) (maxK : Z) (lowOut highOut : option Z) (mem : Mem)
  : Outcome :=
  wgsimReadMisaligned read location (getGenome index) maxK lowOut highOut mem.

(** Lines 167-174: the overload that is given a location in the genome.
    Modelled from the spec: [Genome::getContigAtLocation], declared in
    Genome.h, is kept abstract, any function from locations to contigs. *)
Definition wgsimGenerateIDString_genome (getContigAtLocation : Z -> Contig)
    (genomeLocation readLength : Z) (firstHalf : bool) : list ascii :=
  let contig := getContigAtLocation genomeLocation in
  wgsimGenerateIDString contig (u32 (genomeLocation - beginningOffset contig))
    readLength firstHalf.

(** * Definitions for the statements

    What follows is not code of WGsim.cpp: these definitions say, in the
    words of the specification (fields of an identifier, number of
    underscores before the colon, sums without wrap-around), what the
    theorems compare the definitions above with. *)

(** [lacks c s]: the character [c] does not occur in [s]. *)
Definition lacks (c : ascii) (s : list ascii) : bool :=
  forallb (fun x => negb (Ascii.eqb x c)) s.

(** A character at which [%d] stops reading: no white space, no sign, no
    digit. *)
Definition stops_number (c : ascii) : bool :=
  (negb (isspace c) && negb (isdigit c)
   && negb (Ascii.eqb c "-") && negb (Ascii.eqb c "+"))%bool.

(** [name_f1_f2_f3:rest] *)
Definition dialectId (name f1 f2 f3 rest : list ascii) : list ascii :=
  name ++ "_"%char :: f1 ++ "_"%char :: f2 ++ "_"%char :: f3
    ++ ":"%char :: rest.

(** The three fields between the contig name and the first colon hold
    neither an underscore nor a colon; the contig name holds no colon. *)
Definition dialectFields (name f1 f2 f3 : list ascii) : bool :=
  (lacks ":" name
   && lacks "_" f1 && lacks ":" f1
   && lacks "_" f2 && lacks ":" f2
   && lacks "_" f3 && lacks ":" f3)%bool.

Definition len (s : list ascii) : Z := Z.of_nat (List.length s).

(** What the decoder makes of [name_f1_f2_f3:rest], field by field, in the
    order in which the source checks them. *)
Definition dialectDecoding (genome : Genome) (name f1 f2 f3 rest : list ascii)
  : Parse Decoded :=
  let id := dialectId name f1 f2 f3 rest in
  match sscanf_d f1 with
  | None => fail (BadOffset1 id)
  | Some o1 =>
      match (match f2 with [] => Some o1 | _ :: _ => sscanf_d f2 end) with
      | None => fail (BadOffset2 id)
      | Some o2 =>
          if contigNameMaxSize <=? len name then fail (ContigNameTooLong id)
          else
            match getOffsetOfContig genome name with
            | None => fail (UnknownContig name)
            | Some base =>
                ok {| contigName := name; offset1 := o1; offset2 := o2;
                      offsetOfContig := base |}
            end
      end
  end.

(** The digits of a decimal numeral as characters. *)
Definition chars (d : Decimal.uint) : list ascii :=
  str (NilEmpty.string_of_uint d).

(** [offset + offsetOfContig - 1] as an [unsigned]. *)
Definition absolute (offsetOfContig offset : Z) : Z :=
  u32 (offset + offsetOfContig - 1).

Definition generatedRest (firstHalf : bool) : list ascii :=
  str ":0:0_2:0:a0_0/" ++ print_d (if firstHalf then 1 else 2).

Definition verdict (o : Outcome) : option bool :=
  match o with
  | Exited _ _ => None
  | Returned b _ _ => Some b
  end.

(** The rule of the misalignment test with sums that do not wrap. *)
Definition outsideTolerance (genomeLocation low high maxK : Z) : Prop :=
  genomeLocation > high + maxK \/ genomeLocation + maxK < low.

(** The part of the identifier before its first colon. *)
Definition beforeFirstColon (id : list ascii) : option (list ascii) :=
  match strchr id ":" with
  | None => None
  | Some p => Some (firstn (Z.to_nat p) id)
  end.

Definition underscoresIn (s : list ascii) : nat :=
  count_occ ascii_dec s "_"%char.

(** The failure of lines 63-103 that the shape of the identifier calls for:
    no colon, or fewer than three underscores before the first colon. *)
Definition scanFailure (id : list ascii) : option Diag :=
  match beforeFirstColon id with
  | None => Some (MissingColon id)
  | Some pre =>
      match underscoresIn pre with
      | 0%nat => Some (MissingUnderscore1 id)
      | 1%nat => Some (MissingUnderscore2 id)
      | 2%nat => Some (MissingUnderscore3 id)
      | _ => None
      end
  end.

(** The failures of lines 105-143. *)
Definition laterFailure (e : Diag) : bool :=
  match e with
  | BadOffset1 _ | BadOffset2 _ | ContigNameTooLong _ | UnknownContig _ => true
  | _ => false
  end.

(** The characters of [id] strictly between the offsets [a] and [b]. *)
Definition between (id : list ascii) (a b : Z) : list ascii :=
  firstn (Z.to_nat (b - a - 1)) (at_offset id (a + 1)).

(** The exit taken, without the text it prints. *)
Inductive DiagKind : Type :=
| KReadIdTooLong | KMissingColon | KMissingUnderscore1 | KMissingUnderscore2
| KMissingUnderscore3 | KBadOffset1 | KBadOffset2 | KContigNameTooLong
| KUnknownContig.

Definition kindOf (d : Diag) : DiagKind :=
  match d with
  | ReadIdTooLong => KReadIdTooLong
  | MissingColon _ => KMissingColon
  | MissingUnderscore1 _ => KMissingUnderscore1
  | MissingUnderscore2 _ => KMissingUnderscore2
  | MissingUnderscore3 _ => KMissingUnderscore3
  | BadOffset1 _ => KBadOffset1
  | BadOffset2 _ => KBadOffset2
  | ContigNameTooLong _ => KContigNameTooLong
  | UnknownContig _ => KUnknownContig
  end.

(** The three exits for a missing underscore. *)
Definition missingUnderscore (k : DiagKind) : bool :=
  match k with
  | KMissingUnderscore1 | KMissingUnderscore2 | KMissingUnderscore3 => true
  | _ => false
  end.

(** A decoding up to the text of the diagnostic: the exit taken, or the
    values decoded. *)
Definition decodingOf (r : Parse Decoded) : DiagKind + Decoded :=
  match r with
  | inl d => inl (kindOf d)
  | inr x => inr x
  end.

(** The interval of a decoding that got through. *)
Definition intervalOf (r : Parse Decoded) : option (Z * Z) :=
  match r with
  | inl _ => None
  | inr d => Some (intervalLow d, intervalHigh d)
  end.

(** ** Data for the examples *)

Definition chr_1 : Contig := {| name := str "chr_1"; beginningOffset := 0 |}.
Definition genome1 : Genome := genomeOf [chr_1].

Definition mem0 : Mem := fun _ => 0.

(** An identifier whose interval is [100, 200] in a genome where [chr_1]
    starts at 0. *)
Definition read_100_200 : Read :=
  {| getId := str "chr_1_101_201_0:0:0_0:0:0_0/1" |}.

Definition decoded_100_200 : Decoded :=
  {| contigName := str "chr_1"; offset1 := 101; offset2 := 201;
     offsetOfContig := 0 |}.

(** A contig that starts six positions below the top of the unsigned
    range, and a read on its positions 1 to 6. *)
Definition contig_top : Contig :=
  {| name := str "top"; beginningOffset := 4294967290 |}.
Definition genome_top : Genome := genomeOf [contig_top].
Definition read_top : Read := {| getId := str "top_1_6_0:0:0_0:0:0_0/1" |}.

Definition read_1023 : Read := {| getId := repeat "a"%char 1023 |}.
Definition read_1024 : Read := {| getId := repeat "a"%char 1024 |}.

Definition read_noColon : Read := {| getId := str "noColonHere" |}.

(** A contig with a name of 200 characters, in a genome that knows it. *)
Definition contig_200 : Contig :=
  {| name := repeat "a"%char 200; beginningOffset := 0 |}.
Definition genome_200 : Genome := genomeOf [contig_200].
Definition read_200 : Read :=
  {| getId := wgsimGenerateIDString contig_200 0 1 true |}.

(** A genome of two contigs, and the contig of each location. *)
Definition chr_2 : Contig := {| name := str "chr_2"; beginningOffset := 1000 |}.
Definition genome2 : Genome := genomeOf [chr_1; chr_2].
Definition index2 : GenomeIndex := {| getGenome := genome2 |}.
Definition contigAt2 (location : Z) : Contig :=
  if location <? 1000 then chr_1 else chr_2.

(** * Properties *)

(** ** Examples *)

Example decode_chr_1 :
  decodeId genome1 (str "chr_1_100_200_0::0:0_2:0:a0_0/1")
  = inr {| contigName := str "chr_1"; offset1 := 100; offset2 := 200;
           offsetOfContig := 0 |}.
Proof. vm_compute. reflexivity. Qed.

Example generate_chr_1 :
  wgsimGenerateIDString chr_1 99 101 true
  = str "chr_1_100_200_0::0:0_2:0:a0_0/1".
Proof. vm_compute. reflexivity. Qed.

(** What [%d] stores for numbers at and beyond the ranges of [int] and
    [long]. *)
Example sscanf_d_limits :
  sscanf_d (str "2147483647") = Some 2147483647
  /\ sscanf_d (str "-1") = Some 4294967295
  /\ sscanf_d (str "4294967296") = Some 0
  /\ sscanf_d (str "9223372036854775807") = Some 4294967295
  /\ sscanf_d (str "99999999999999999999") = Some 4294967295
  /\ sscanf_d (str "-99999999999999999999") = Some 0.
Proof. repeat split; vm_compute; reflexivity. Qed.

(** ** Facts about the string functions *)

Lemma lacks_app c s t : lacks c (s ++ t) = (lacks c s && lacks c t)%bool.
Proof. apply forallb_app. Qed.

Lemma lacks_cons c x s :
  lacks c (x :: s) = (negb (Ascii.eqb x c) && lacks c s)%bool.
Proof. reflexivity. Qed.

Lemma strchr_found c pre rest :
  lacks c pre = true ->
  strchr (pre ++ c :: rest) c = Some (Z.of_nat (List.length pre)).
Proof.
  induction pre as [|x pre IH]; simpl; intros H.
  - now rewrite Ascii.eqb_refl.
  - apply andb_true_iff in H as [Hx Hpre].
    apply negb_true_iff in Hx. rewrite Hx, (IH Hpre). simpl.
    f_equal. lia.
Qed.

Lemma strchr_lacks c s : lacks c s = true -> strchr s c = None.
Proof.
  induction s as [|x s IH]; simpl; intros H; [reflexivity|].
  apply andb_true_iff in H as [Hx Hs].
  apply negb_true_iff in Hx. now rewrite Hx, (IH Hs).
Qed.

Lemma strchr_split c s :
  match strchr s c with
  | Some p =>
      exists pre rest, s = pre ++ c :: rest /\ lacks c pre = true
                       /\ p = Z.of_nat (List.length pre)
  | None => lacks c s = true
  end.
Proof.
  induction s as [|x s IH]; simpl; [reflexivity|].
  destruct (Ascii.eqb x c) eqn:E.
  - apply Ascii.eqb_eq in E. subst x. exists [], s. now repeat split.
  - destruct (strchr s c) as [p|]; simpl.
    + destruct IH as (pre & rest & -> & Hl & ->).
      exists (x :: pre), rest. repeat split.
      * simpl. now rewrite E, Hl.
      * simpl List.length. lia.
    + exact IH.
Qed.

Lemma nth_after_prefix (pre tail : list ascii) x :
  nth (List.length pre) ((pre ++ [x]) ++ tail) NUL = x.
Proof. rewrite <- app_assoc. simpl. apply nth_middle. Qed.

Lemma scanBack_found pre f tail :
  lacks "_" f = true ->
  scanBack ((pre ++ "_"%char :: f) ++ tail) (List.length (pre ++ "_"%char :: f))
  = Z.of_nat (List.length pre).
Proof.
  revert tail. induction f as [|x f IH] using rev_ind; intros tail H.
  - rewrite length_app, Nat.add_1_r. simpl scanBack.
    now rewrite nth_after_prefix.
  - rewrite lacks_app in H. apply andb_true_iff in H as [Hf Hx].
    simpl in Hx. rewrite andb_true_r in Hx. apply negb_true_iff in Hx.
    change (pre ++ "_"%char :: f ++ [x]) with (pre ++ ("_"%char :: f) ++ [x]).
    rewrite (app_assoc pre), (length_app (pre ++ _) [x]), Nat.add_1_r.
    simpl scanBack. rewrite nth_after_prefix, Hx.
    rewrite <- (app_assoc _ [x] tail). apply IH, Hf.
Qed.

Lemma scanBack_none pre tail :
  lacks "_" pre = true -> scanBack (pre ++ tail) (List.length pre) = -1.
Proof.
  revert tail. induction pre as [|x pre IH] using rev_ind; intros tail H.
  - reflexivity.
  - rewrite lacks_app in H. apply andb_true_iff in H as [Hf Hx].
    simpl in Hx. rewrite andb_true_r in Hx. apply negb_true_iff in Hx.
    rewrite length_app, Nat.add_1_r. simpl scanBack.
    rewrite nth_after_prefix, Hx.
    rewrite <- (app_assoc _ [x] tail). apply IH, Hf.
Qed.

(** The underscore the backward loop stops at is the last one of the part
    it scans; it gets to [id - 1] only when that part has none. *)
Lemma scanBack_split pre tail :
  (lacks "_" pre = true /\ scanBack (pre ++ tail) (List.length pre) = -1)
  \/ exists pre' f,
       pre = pre' ++ "_"%char :: f /\ lacks "_" f = true
       /\ scanBack (pre ++ tail) (List.length pre)
          = Z.of_nat (List.length pre').
Proof.
  induction pre as [|x pre IH] using rev_ind.
  - left. split; reflexivity.
  - destruct (Ascii.eqb x "_") eqn:E.
    + apply Ascii.eqb_eq in E. subst x. right. exists pre, [].
      split; [reflexivity|]. split; [reflexivity|].
      apply (scanBack_found pre [] tail). reflexivity.
    + destruct IH as [[Hl _]|(pre' & f & -> & Hf & _)].
      * left. assert (Hl' : lacks "_" (pre ++ [x]) = true).
        { rewrite lacks_app, Hl. simpl. now rewrite E. }
        split; [exact Hl'|]. now apply scanBack_none.
      * right. exists pre', (f ++ [x]).
        assert (Hl' : lacks "_" (f ++ [x]) = true).
        { rewrite lacks_app, Hf. simpl. now rewrite E. }
        split; [now rewrite <- app_assoc|]. split; [exact Hl'|].
        replace ((pre' ++ "_"%char :: f) ++ [x])
          with (pre' ++ "_"%char :: f ++ [x]) by now rewrite <- app_assoc.
        now apply scanBack_found.
Qed.

Lemma skip_space_stop f c t :
  isspace c = false -> skip_space (f ++ c :: t) = skip_space f ++ c :: t.
Proof.
  intros Hc. induction f as [|x f IH]; simpl.
  - now rewrite Hc.
  - destruct (isspace x); [exact IH | reflexivity].
Qed.

Lemma read_digits_stop f c t acc :
  isdigit c = false -> read_digits acc (f ++ c :: t) = read_digits acc f.
Proof.
  intros Hc. revert acc. induction f as [|x f IH]; intros acc; simpl.
  - now rewrite Hc.
  - destruct (isdigit x); [apply IH | reflexivity].
Qed.

(** [%d] reads nothing beyond such a character: the number read from a text
    that continues with it is the number read from the text before it. *)
Lemma sscanf_d_stop f c t :
  stops_number c = true -> sscanf_d (f ++ c :: t) = sscanf_d f.
Proof.
  unfold stops_number. rewrite !andb_true_iff, !negb_true_iff.
  intros [[[Hs Hd] Hm] Hp].
  unfold sscanf_d. rewrite (skip_space_stop f c t Hs).
  destruct (skip_space f) as [|x r]; simpl.
  - now rewrite Hm, Hp, Hd.
  - destruct (Ascii.eqb x "-"); [|destruct (Ascii.eqb x "+")].
    + destruct r as [|y r]; simpl; [now rewrite Hd|].
      destruct (isdigit y); [|reflexivity].
      now rewrite (read_digits_stop r c t _ Hd).
    + destruct r as [|y r]; simpl; [now rewrite Hd|].
      destruct (isdigit y); [|reflexivity].
      now rewrite (read_digits_stop r c t _ Hd).
    + simpl. destruct (isdigit x); [|reflexivity].
      now rewrite (read_digits_stop r c t _ Hd).
Qed.

Lemma at_offset_after pre c tail :
  at_offset (pre ++ c :: tail) (Z.of_nat (List.length pre) + 1) = tail.
Proof.
  unfold at_offset.
  replace (Z.to_nat (Z.of_nat (List.length pre) + 1))
    with (List.length (pre ++ [c])) by (rewrite length_app; simpl; lia).
  change (pre ++ c :: tail) with (pre ++ [c] ++ tail).
  rewrite app_assoc, skipn_app, Nat.sub_diag, skipn_all. reflexivity.
Qed.

Lemma firstn_prefix (pre tail : list ascii) :
  firstn (Z.to_nat (Z.of_nat (List.length pre))) (pre ++ tail) = pre.
Proof.
  rewrite Nat2Z.id, firstn_app, Nat.sub_diag, firstn_all. simpl.
  apply List.app_nil_r.
Qed.

(** ** The identifiers of the dialect *)

Lemma underscoreBefore_found id pre f tail :
  id = (pre ++ "_"%char :: f) ++ tail ->
  lacks "_" f = true ->
  underscoreBefore id (len (pre ++ "_"%char :: f)) = len pre.
Proof.
  intros -> H. unfold underscoreBefore, len. rewrite Nat2Z.id.
  now apply scanBack_found.
Qed.

Lemma findUnderscores_dialect name f1 f2 f3 rest :
  dialectFields name f1 f2 f3 = true ->
  findUnderscores (dialectId name f1 f2 f3 rest)
  = ok {| firstColon := len name + 1 + len f1 + 1 + len f2 + 1 + len f3;
          underscoreBeforeColon := len name + 1 + len f1 + 1 + len f2;
          secondUnderscoreBeforeColon := len name + 1 + len f1;
          thirdUnderscoreBeforeColon := len name |}.
Proof.
  unfold dialectFields. rewrite !andb_true_iff.
  intros [[[[[[Hn H1] H1'] H2] H2'] H3] H3'].
  set (id := dialectId name f1 f2 f3 rest).
  set (p2 := name ++ "_"%char :: f1).
  set (p3 := p2 ++ "_"%char :: f2).
  set (p4 := p3 ++ "_"%char :: f3).
  assert (E4 : id = p4 ++ ":"%char :: rest).
  { unfold id, dialectId, p4, p3, p2.
    now rewrite <- ?app_assoc, <- ?app_comm_cons, <- ?app_assoc. }
  assert (E3 : id = (p2 ++ "_"%char :: f2)
                      ++ "_"%char :: f3 ++ ":"%char :: rest).
  { rewrite E4. unfold p4, p3.
    now rewrite <- ?app_assoc, <- ?app_comm_cons. }
  assert (E2 : id = (name ++ "_"%char :: f1)
                      ++ "_"%char :: f2 ++ "_"%char :: f3 ++ ":"%char :: rest).
  { rewrite E3. unfold p2.
    now rewrite <- ?app_assoc, <- ?app_comm_cons. }
  assert (L2 : len p2 = len name + 1 + len f1).
  { unfold p2, len. rewrite length_app. simpl. lia. }
  assert (L3 : len p3 = len name + 1 + len f1 + 1 + len f2).
  { unfold p3. unfold len in *. rewrite length_app. simpl. lia. }
  assert (L4 : len p4 = len name + 1 + len f1 + 1 + len f2 + 1 + len f3).
  { unfold p4. unfold len in *. rewrite length_app. simpl. lia. }
  assert (C4 : lacks ":" p4 = true).
  { unfold p4, p3, p2. repeat (rewrite lacks_app || rewrite lacks_cons).
    now rewrite Hn, H1', H2', H3'. }
  unfold findUnderscores. fold id.
  rewrite E4 at 1. rewrite (strchr_found _ _ _ C4). fold (len p4).
  pose proof (underscoreBefore_found id p3 f3 _ E4 H3) as U1.
  pose proof (underscoreBefore_found id p2 f2 _ E3 H2) as U2.
  pose proof (underscoreBefore_found id name f1 _ E2 H1) as U3.
  change (p3 ++ "_"%char :: f3) with p4 in U1.
  change (p2 ++ "_"%char :: f2) with p3 in U2.
  change (name ++ "_"%char :: f1) with p2 in U3.
  rewrite U1, U2, U3.
  assert (N2 : 0 <= len p2) by (unfold len; lia).
  assert (N3 : 0 <= len p3) by (unfold len; lia).
  assert (N1 : 0 <= len name) by (unfold len; lia).
  unfold check, bind.
  destruct (Z.ltb_spec (len p3) 0); [lia|].
  destruct (Z.ltb_spec (len p2) 0); [lia|].
  destruct (Z.ltb_spec (len name) 0); [lia|].
  unfold ok. now rewrite L4, L3, L2.
Qed.

Lemma underscore_stops_number : stops_number "_" = true.
Proof. reflexivity. Qed.

Lemma parseOffsets_dialect name f1 f2 f3 rest fc :
  parseOffsets (dialectId name f1 f2 f3 rest)
    {| firstColon := fc;
       underscoreBeforeColon := len name + 1 + len f1 + 1 + len f2;
       secondUnderscoreBeforeColon := len name + 1 + len f1;
       thirdUnderscoreBeforeColon := len name |}
  = match sscanf_d f1 with
    | None => fail (BadOffset1 (dialectId name f1 f2 f3 rest))
    | Some o1 =>
        match f2 with
        | [] => ok (o1, o1)
        | _ :: _ =>
            match sscanf_d f2 with
            | None => fail (BadOffset2 (dialectId name f1 f2 f3 rest))
            | Some o2 => ok (o1, o2)
            end
        end
    end.
Proof.
  unfold parseOffsets. cbn [thirdUnderscoreBeforeColon
    secondUnderscoreBeforeColon underscoreBeforeColon].
  unfold dialectId at 1. unfold len at 1.
  rewrite at_offset_after, (sscanf_d_stop f1 _ _ underscore_stops_number).
  destruct (sscanf_d f1) as [o1|]; [|reflexivity].
  assert (E : dialectId name f1 f2 f3 rest
              = (name ++ "_"%char :: f1)
                  ++ "_"%char :: f2 ++ "_"%char :: f3 ++ ":"%char :: rest).
  { unfold dialectId. now rewrite <- app_assoc, <- app_comm_cons. }
  assert (L : len name + 1 + len f1
              = Z.of_nat (List.length (name ++ "_"%char :: f1))).
  { unfold len. rewrite length_app. simpl. lia. }
  destruct f2 as [|c f2].
  - change (len []) with 0.
    now rewrite Z.add_0_r, Z.eqb_refl.
  - destruct (Z.eqb_spec (len name + 1 + len f1 + 1 + len (c :: f2))
                (len name + 1 + len f1 + 1)) as [A|_].
    + unfold len in A. simpl List.length in A. lia.
    + rewrite E at 1. rewrite L, at_offset_after.
      now rewrite (sscanf_d_stop (c :: f2) _ _ underscore_stops_number).
Qed.

Lemma lookupContigName_dialect genome name f1 f2 f3 rest fc u1 u2 :
  lookupContigName genome (dialectId name f1 f2 f3 rest)
    {| firstColon := fc; underscoreBeforeColon := u1;
       secondUnderscoreBeforeColon := u2;
       thirdUnderscoreBeforeColon := len name |}
  = if contigNameMaxSize <=? len name
    then fail (ContigNameTooLong (dialectId name f1 f2 f3 rest))
    else match getOffsetOfContig genome name with
         | None => fail (UnknownContig name)
         | Some base => ok (name, base)
         end.
Proof.
  unfold lookupContigName. cbn [thirdUnderscoreBeforeColon].
  destruct (contigNameMaxSize <=? len name); [reflexivity|].
  unfold check, bind, ok. unfold dialectId, len. now rewrite firstn_prefix.
Qed.

(** The decoder on an identifier of the dialect. *)
Lemma decodeId_dialect genome name f1 f2 f3 rest :
  dialectFields name f1 f2 f3 = true ->
  decodeId genome (dialectId name f1 f2 f3 rest)
  = dialectDecoding genome name f1 f2 f3 rest.
Proof.
  intros H. unfold decodeId, dialectDecoding.
  rewrite (findUnderscores_dialect _ _ _ _ _ H). unfold ok at 1, bind at 1.
  rewrite parseOffsets_dialect, lookupContigName_dialect.
  destruct (sscanf_d f1) as [o1|]; [|reflexivity].
  destruct f2 as [|c f2].
  - unfold ok, bind.
    destruct (contigNameMaxSize <=? len name); [reflexivity|].
    now destruct (getOffsetOfContig genome name).
  - destruct (sscanf_d (c :: f2)) as [o2|]; [|reflexivity].
    unfold ok, bind.
    destruct (contigNameMaxSize <=? len name); [reflexivity|].
    now destruct (getOffsetOfContig genome name).
Qed.

Lemma underscoreBefore_split id pre tail :
  id = pre ++ tail ->
  (lacks "_" pre = true /\ underscoreBefore id (len pre) = -1)
  \/ exists pre' f,
       pre = pre' ++ "_"%char :: f /\ lacks "_" f = true
       /\ underscoreBefore id (len pre) = len pre'.
Proof.
  intros ->. unfold underscoreBefore, len. rewrite Nat2Z.id.
  apply scanBack_split.
Qed.

Lemma check_len (s : list ascii) (d : Diag) : check (len s <? 0) d = ok tt.
Proof.
  unfold check. destruct (Z.ltb_spec (len s) 0) as [H|H]; [|reflexivity].
  unfold len in H. lia.
Qed.

(** Every way in which lines 63-103 can end: which exit is taken depends
    only on whether there is a colon and on how many underscores precede the
    first one. *)
Lemma findUnderscores_cases id :
  (lacks ":" id = true /\ findUnderscores id = fail (MissingColon id))
  \/ exists pre rest,
       id = pre ++ ":"%char :: rest /\ lacks ":" pre = true /\
       ((lacks "_" pre = true
         /\ findUnderscores id = fail (MissingUnderscore1 id))
        \/ (exists a f3,
              pre = a ++ "_"%char :: f3
              /\ lacks "_" a = true /\ lacks "_" f3 = true
              /\ findUnderscores id = fail (MissingUnderscore2 id))
        \/ (exists a f2 f3,
              pre = (a ++ "_"%char :: f2) ++ "_"%char :: f3
              /\ lacks "_" a = true /\ lacks "_" f2 = true
              /\ lacks "_" f3 = true
              /\ findUnderscores id = fail (MissingUnderscore3 id))
        \/ (exists name f1 f2 f3,
              pre = ((name ++ "_"%char :: f1) ++ "_"%char :: f2)
                      ++ "_"%char :: f3
              /\ lacks "_" f1 = true /\ lacks "_" f2 = true
              /\ lacks "_" f3 = true
              /\ findUnderscores id
                 = ok {| firstColon := len pre;
                         underscoreBeforeColon :=
                           len ((name ++ "_"%char :: f1) ++ "_"%char :: f2);
                         secondUnderscoreBeforeColon :=
                           len (name ++ "_"%char :: f1);
                         thirdUnderscoreBeforeColon := len name |})).
Proof.
  pose proof (strchr_split ":"%char id) as S.
  unfold findUnderscores.
  destruct (strchr id ":") as [p|]; [|left; now split].
  destruct S as (pre & rest & Hid & Hc & ->). fold (len pre).
  right. exists pre, rest. split; [exact Hid|]. split; [exact Hc|].
  destruct (underscoreBefore_split id pre _ Hid)
    as [[L1 U1]|(p3 & f3 & Hp3 & L3 & U1)]; rewrite U1.
  { left. now split. }
  right. rewrite check_len. unfold ok at 1, bind at 1.
  assert (Hid3 : id = p3 ++ "_"%char :: f3 ++ ":"%char :: rest).
  { rewrite Hid, Hp3. now rewrite <- app_assoc. }
  destruct (underscoreBefore_split id p3 _ Hid3)
    as [[L2 U2]|(p2 & f2 & Hp2 & L2 & U2)]; rewrite U2.
  { left. exists p3, f3. now repeat split. }
  right. rewrite check_len. unfold ok at 1, bind at 1.
  assert (Hid2 : id = p2 ++ "_"%char :: f2 ++ "_"%char :: f3
                        ++ ":"%char :: rest).
  { rewrite Hid3, Hp2. now rewrite <- app_assoc. }
  destruct (underscoreBefore_split id p2 _ Hid2)
    as [[L U3]|(name & f1 & Hp1 & L1 & U3)]; rewrite U3.
  { left. exists p2, f2, f3. subst. now repeat split. }
  right. rewrite check_len. unfold ok at 1, bind at 1.
  exists name, f1, f2, f3. subst p2 p3. subst pre. now repeat split.
Qed.

Lemma dialectId_nested name f1 f2 f3 rest :
  (((name ++ "_"%char :: f1) ++ "_"%char :: f2) ++ "_"%char :: f3)
    ++ ":"%char :: rest
  = dialectId name f1 f2 f3 rest.
Proof.
  unfold dialectId. now rewrite <- ?app_assoc, <- ?app_comm_cons, <- ?app_assoc.
Qed.

(** When lines 63-103 get through, the identifier is one of the dialect. *)
Lemma findUnderscores_shape id u :
  findUnderscores id = ok u ->
  exists name f1 f2 f3 rest,
    id = dialectId name f1 f2 f3 rest
    /\ dialectFields name f1 f2 f3 = true.
Proof.
  intros H.
  destruct (findUnderscores_cases id) as [[_ E]|(pre & rest & Hid & Hc & C)].
  { rewrite E in H. discriminate. }
  destruct C as [[_ E]|[(a & f3 & _ & _ & _ & E)|
    [(a & f2 & f3 & _ & _ & _ & _ & E)|
     (name & f1 & f2 & f3 & Hpre & H1 & H2 & H3 & _)]]];
    try (rewrite E in H; discriminate).
  exists name, f1, f2, f3, rest. split.
  - now rewrite Hid, Hpre, dialectId_nested.
  - rewrite Hpre in Hc.
    repeat (rewrite lacks_app in Hc || rewrite lacks_cons in Hc).
    rewrite !andb_true_iff in Hc. simpl negb in Hc.
    destruct Hc as [[[Hn [_ C1]] [_ C2]] [_ C3]].
    unfold dialectFields. now rewrite Hn, H1, C1, H2, C2, H3, C3.
Qed.

(** ** Decimal numbers: what [%d] writes, [%d] reads back *)

Section Decimal.

Import Decimal.

Lemma chars_digits d : forallb isdigit (chars d) = true.
Proof. induction d; simpl; auto. Qed.

Lemma chars_length d : List.length (chars d) = nb_digits d.
Proof. induction d; simpl; auto. Qed.

Lemma digits_lack c s :
  isdigit c = false -> forallb isdigit s = true -> lacks c s = true.
Proof.
  intros Hc. induction s as [|x s IH]; simpl; [reflexivity|].
  intros H. apply andb_true_iff in H as [Hx Hs].
  rewrite (IH Hs), andb_true_r. apply negb_true_iff.
  destruct (Ascii.eqb_spec x c) as [->|]; [congruence | reflexivity].
Qed.

(** One digit read: the goal is put in the shape of the induction
    hypothesis. *)
Ltac read_one_digit :=
  unfold chars;
  cbn [NilEmpty.string_of_uint str list_ascii_of_string read_digits
       Pos.of_uint_acc Pos.of_uint];
  match goal with
  | |- context [list_ascii_of_string (NilEmpty.string_of_uint ?d)] =>
      change (list_ascii_of_string (NilEmpty.string_of_uint d))
        with (chars d)
  end;
  match goal with
  | |- context [isdigit ?c] => change (isdigit c) with true
  end;
  cbv iota;
  match goal with
  | |- context [digit_value ?c] =>
      let v := eval vm_compute in (digit_value c) in
      change (digit_value c) with v
  end.

Lemma read_digits_acc d p :
  read_digits (Z.pos p) (chars d) = Z.pos (Pos.of_uint_acc d p).
Proof.
  revert p.
  induction d; intros p; [reflexivity | ..]; read_one_digit;
    match goal with
    | |- read_digits ?a _ = Z.pos (Pos.of_uint_acc _ ?q) =>
        replace a with (Z.pos q) by lia
    end; apply IHd.
Qed.

Lemma read_digits_uint d :
  read_digits 0 (chars d) = Z.of_N (Pos.of_uint d).
Proof.
  induction d; [reflexivity | ..]; read_one_digit;
    [exact IHd | ..]; cbn [Z.of_N];
    match goal with
    | |- read_digits ?a _ = Z.pos (Pos.of_uint_acc _ ?q) =>
        replace a with (Z.pos q) by lia
    end; apply read_digits_acc.
Qed.

Lemma print_d_pos p : print_d (Z.pos p) = chars (Pos.to_uint p).
Proof.
  unfold print_d, chars. simpl.
  pose proof (DecimalPos.Unsigned.to_uint_nonnil p) as H.
  unfold NilZero.string_of_uint.
  destruct (Pos.to_uint p); [exfalso; now apply H | reflexivity ..].
Qed.

Lemma print_d_neg p :
  print_d (Z.neg p) = "-"%char :: chars (Pos.to_uint p).
Proof.
  unfold print_d, chars. simpl.
  pose proof (DecimalPos.Unsigned.to_uint_nonnil p) as H.
  unfold NilZero.string_of_uint.
  destruct (Pos.to_uint p); [exfalso; now apply H | reflexivity ..].
Qed.

Lemma chars_to_uint_cons p :
  exists c r, chars (Pos.to_uint p) = c :: r /\ isdigit c = true.
Proof.
  pose proof (DecimalPos.Unsigned.to_uint_nonnil p) as H.
  pose proof (chars_digits (Pos.to_uint p)) as D.
  destruct (chars (Pos.to_uint p)) as [|c r] eqn:E.
  - destruct (Pos.to_uint p);
      [exfalso; now apply H | unfold chars in E; cbn in E; discriminate E ..].
  - exists c, r. simpl in D. apply andb_true_iff in D as [D _]. now split.
Qed.

Lemma digit_no_space_no_sign c :
  isdigit c = true ->
  isspace c = false /\ Ascii.eqb c "-" = false /\ Ascii.eqb c "+" = false.
Proof.
  destruct c as [[] [] [] [] [] [] [] []]; vm_compute; intros H;
    (discriminate H || now repeat split).
Qed.

Lemma saturate_small z : LONG_MIN <= z <= LONG_MAX -> saturate z = z.
Proof. unfold saturate. lia. Qed.

(** Reading back a printed number that fits a [long] gives its 32 bits. *)
Lemma sscanf_d_print_d z :
  LONG_MIN <= z <= LONG_MAX -> sscanf_d (print_d z) = Some (u32 z).
Proof.
  intros Hz. destruct z as [|p|p].
  - reflexivity.
  - rewrite print_d_pos.
    destruct (chars_to_uint_cons p) as (c & r & E & D).
    pose proof (read_digits_uint (Pos.to_uint p)) as R.
    rewrite DecimalPos.Unsigned.of_to, E in R. rewrite E.
    destruct (digit_no_space_no_sign c D) as (S1 & S2 & S3).
    unfold sscanf_d. simpl skip_space. rewrite S1, S2, S3, D.
    rewrite R. cbn [Z.of_N]. now rewrite (saturate_small _ Hz).
  - rewrite print_d_neg.
    destruct (chars_to_uint_cons p) as (c & r & E & D).
    pose proof (read_digits_uint (Pos.to_uint p)) as R.
    rewrite DecimalPos.Unsigned.of_to, E in R. rewrite E.
    unfold sscanf_d. simpl skip_space. cbv iota beta.
    change (Ascii.eqb "-" "-") with true. cbv iota beta.
    rewrite D, R. cbn [Z.of_N Z.opp]. now rewrite (saturate_small _ Hz).
Qed.

Lemma print_d_lacks c z :
  isdigit c = false -> Ascii.eqb c "-" = false ->
  lacks c (print_d z) = true.
Proof.
  intros Hd Hm. destruct z as [|p|p].
  - apply (digits_lack c (str "0") Hd). reflexivity.
  - rewrite print_d_pos. apply digits_lack, chars_digits. exact Hd.
  - rewrite print_d_neg, lacks_cons.
    rewrite (digits_lack c _ Hd (chars_digits _)), andb_true_r.
    apply negb_true_iff. rewrite Ascii.eqb_sym. exact Hm.
Qed.

End Decimal.

Lemma u32_to_int x : in_range x -> u32 (to_int x) = x.
Proof.
  unfold in_range, u32, to_int, modulus. intros H.
  destruct (x <? 2 ^ 31).
  - now apply Z.mod_small.
  - replace (x - 2 ^ 32) with (x + (-1) * 2 ^ 32) by ring.
    rewrite Z_mod_plus_full. now apply Z.mod_small.
Qed.

Lemma u32_range z : in_range (u32 z).
Proof. unfold in_range, u32, modulus. apply Z.mod_pos_bound. lia. Qed.

Lemma to_int_long x : in_range x -> LONG_MIN <= to_int x <= LONG_MAX.
Proof.
  unfold in_range, to_int, modulus, LONG_MIN, LONG_MAX. intros H.
  change (2 ^ 63) with 9223372036854775808.
  change (2 ^ 32) with 4294967296 in *.
  change (2 ^ 31) with 2147483648.
  destruct (Z.ltb_spec x 2147483648); lia.
Qed.

Lemma to_int_range x :
  in_range x -> - 2 ^ 31 <= to_int x < 2 ^ 31.
Proof.
  unfold in_range, to_int, modulus. intros H.
  destruct (Z.ltb_spec x (2 ^ 31)); lia.
Qed.

(** The length of what [%d] writes for a 32-bit number: at most ten digits
    and a sign. *)
Section DecimalLength.

Import Decimal.

Lemma of_uint_acc_lower d p :
  Z.pos p * 10 ^ Z.of_nat (nb_digits d) <= Z.pos (Pos.of_uint_acc d p).
Proof.
  revert p. induction d; intros p;
    [simpl; lia | cbn [nb_digits Pos.of_uint_acc] ..];
    rewrite Nat2Z.inj_succ, Z.pow_succ_r by lia;
    match goal with
    | |- _ <= Z.pos (Pos.of_uint_acc _ ?q) =>
        specialize (IHd q);
        assert (Z.pos p * 10 <= Z.pos q) by lia
    end;
    assert (0 < 10 ^ Z.of_nat (nb_digits d)) by (apply Z.pow_pos_nonneg; lia);
    nia.
Qed.

Lemma to_uint_leading p :
  match Pos.to_uint p with Nil | D0 _ => False | _ => True end.
Proof.
  pose proof (DecimalPos.Unsigned.to_of (Pos.to_uint p)) as H.
  rewrite DecimalPos.Unsigned.of_to in H. cbn [N.to_uint] in H.
  pose proof (DecimalPos.Unsigned.to_uint_nonnil p) as Hnil.
  pose proof (DecimalPos.Unsigned.to_uint_nonzero p) as Hzero.
  destruct (Pos.to_uint p) as [|u| | | | | | | | |]; try exact I.
  - now apply Hnil.
  - unfold unorm in H. cbn [nzhead] in H.
    pose proof (DecimalFacts.nb_digits_nzhead u) as L.
    destruct (nzhead u) as [|u'| | | | | | | | |]; try discriminate H.
    + apply Hzero. injection H as ->. reflexivity.
    + injection H as ->. cbn [nb_digits] in L. lia.
Qed.

Lemma to_uint_digits q :
  Z.pos q < 2 ^ 32 -> (nb_digits (Pos.to_uint q) <= 10)%nat.
Proof.
  intros Hq.
  pose proof (DecimalPos.Unsigned.of_to q) as E.
  pose proof (to_uint_leading q) as L.
  assert (B : forall u, 10 ^ Z.of_nat (nb_digits u) < 2 ^ 32 ->
                        (nb_digits u <= 9)%nat).
  { intros u Hu.
    destruct (Nat.le_gt_cases (nb_digits u) 9) as [|G]; [assumption|].
    assert (10 ^ 10 <= 10 ^ Z.of_nat (nb_digits u))
      by (apply Z.pow_le_mono_r; lia).
    change (10 ^ 10) with 10000000000 in *.
    change (2 ^ 32) with 4294967296 in *. lia. }
  destruct (Pos.to_uint q) as [|u|u|u|u|u|u|u|u|u|u];
    try contradiction;
    cbn [Pos.of_uint] in E; injection E as E;
    cbn [nb_digits]; apply le_n_S, B;
    match type of E with
    | Pos.of_uint_acc _ ?k = _ =>
        pose proof (of_uint_acc_lower u k) as A
    end;
    rewrite E in A;
    assert (0 < 10 ^ Z.of_nat (nb_digits u)) by (apply Z.pow_pos_nonneg; lia);
    nia.
Qed.

Lemma print_d_length z :
  - 2 ^ 32 < z < 2 ^ 32 -> len (print_d z) <= 11.
Proof.
  intros H. unfold len. destruct z as [|p|p].
  - simpl. lia.
  - rewrite print_d_pos, chars_length.
    pose proof (to_uint_digits p). lia.
  - rewrite print_d_neg. cbn [List.length]. rewrite chars_length.
    pose proof (to_uint_digits p). lia.
Qed.

End DecimalLength.

(** ** The local buffer [id] *)

Lemma c_str_lacks_NUL buf : lacks NUL (c_str buf) = true.
Proof.
  induction buf as [|c buf IH]; simpl; [reflexivity|].
  destruct (Ascii.eqb c NUL) eqn:E; [reflexivity|].
  simpl. now rewrite E, IH.
Qed.

Lemma c_str_id s : lacks NUL s = true -> c_str s = s.
Proof.
  induction s as [|c s IH]; simpl; [reflexivity|].
  intros H. apply andb_true_iff in H as [Hc Hs].
  apply negb_true_iff in Hc. now rewrite Hc, (IH Hs).
Qed.

(** An identifier of at most 1023 characters without NUL is copied whole. *)
Lemma idBuffer_whole s :
  len s <= 1023 -> lacks NUL s = true -> idBuffer {| getId := s |} = s.
Proof.
  intros L N. unfold idBuffer, getIdLength, idBufferSize. cbn [getId].
  fold (len s). rewrite Z.min_l by lia. unfold len.
  rewrite Nat2Z.id, firstn_all. now apply c_str_id.
Qed.

(** ** Coordinates *)

Lemma absOffset_absolute offset base :
  absOffset offset base = absolute base offset.
Proof.
  unfold absOffset, absolute, u32, modulus.
  rewrite Zminus_mod_idemp_l. reflexivity.
Qed.

Lemma absOffset_u32 offset base :
  absOffset (u32 offset) base = absolute base offset.
Proof.
  rewrite absOffset_absolute. unfold absolute, u32, modulus.
  rewrite <- Z.add_sub_assoc, Zplus_mod_idemp_l, Z.add_sub_assoc.
  reflexivity.
Qed.

(** ** The generated identifier *)

Lemma print_d_cons z : exists c r, print_d z = c :: r.
Proof.
  destruct z as [|p|p].
  - now exists "0"%char, [].
  - rewrite print_d_pos.
    destruct (chars_to_uint_cons p) as (c & r & E & _). now exists c, r.
  - rewrite print_d_neg. eexists. eexists. reflexivity.
Qed.

Lemma wgsimGenerateIDString_dialect contig offsetInContig readLength firstHalf :
  wgsimGenerateIDString contig offsetInContig readLength firstHalf
  = dialectId (c_str (name contig))
      (print_d (to_int (u32 (offsetInContig + 1))))
      (print_d (to_int (u32 (offsetInContig + readLength))))
      (str "0") (generatedRest firstHalf).
Proof.
  unfold wgsimGenerateIDString, dialectId, generatedRest. reflexivity.
Qed.

Lemma generated_fields nm z1 z2 :
  lacks ":" nm = true ->
  dialectFields nm (print_d z1) (print_d z2) (str "0") = true.
Proof.
  intros H. unfold dialectFields.
  rewrite H, !print_d_lacks by reflexivity. reflexivity.
Qed.

Lemma generated_length contig offsetInContig readLength firstHalf :
  len (c_str (name contig)) < contigNameMaxSize ->
  len (wgsimGenerateIDString contig offsetInContig readLength firstHalf)
  <= 1023.
Proof.
  unfold contigNameMaxSize. intros H.
  pose proof (print_d_length (to_int (u32 (offsetInContig + 1)))) as L1.
  pose proof (print_d_length (to_int (u32 (offsetInContig + readLength))))
    as L2.
  pose proof (to_int_range _ (u32_range (offsetInContig + 1))) as R1.
  pose proof (to_int_range _ (u32_range (offsetInContig + readLength))) as R2.
  assert (L3 : len (print_d (if firstHalf then 1 else 2)) <= 11)
    by (destruct firstHalf; vm_compute; discriminate).
  unfold wgsimGenerateIDString. unfold len in *.
  rewrite !length_app. cbn [List.length str list_ascii_of_string].
  change (2 ^ 31) with 2147483648 in *.
  change (2 ^ 32) with 4294967296 in *. lia.
Qed.

Lemma generated_lacks_NUL contig offsetInContig readLength firstHalf :
  lacks NUL (wgsimGenerateIDString contig offsetInContig readLength firstHalf)
  = true.
Proof.
  unfold wgsimGenerateIDString. rewrite !lacks_app, c_str_lacks_NUL.
  rewrite !print_d_lacks by reflexivity. reflexivity.
Qed.

(** The decoder on a generated identifier. *)
Lemma decodeId_generated genome contig offsetInContig readLength firstHalf base :
  lacks ":" (c_str (name contig)) = true ->
  len (c_str (name contig)) < contigNameMaxSize ->
  getOffsetOfContig genome (c_str (name contig)) = Some base ->
  decodeId genome
    (wgsimGenerateIDString contig offsetInContig readLength firstHalf)
  = ok {| contigName := c_str (name contig);
          offset1 := u32 (offsetInContig + 1);
          offset2 := u32 (offsetInContig + readLength);
          offsetOfContig := base |}.
Proof.
  intros Hc Hl Hg.
  rewrite wgsimGenerateIDString_dialect.
  rewrite decodeId_dialect by now apply generated_fields.
  unfold dialectDecoding.
  rewrite !sscanf_d_print_d by apply to_int_long, u32_range.
  rewrite !u32_to_int by apply u32_range.
  destruct (print_d_cons (to_int (u32 (offsetInContig + readLength))))
    as (c & r & ->).
  destruct (Z.leb_spec contigNameMaxSize (len (c_str (name contig))));
    [lia|].
  now rewrite Hg.
Qed.

(** ** The two ways out of [wgsimReadMisaligned] *)

Lemma wgsimReadMisaligned_long read genomeLocation genome maxK lowOut highOut
    mem :
  1023 < getIdLength read ->
  wgsimReadMisaligned read genomeLocation genome maxK lowOut highOut mem
  = Exited 1 [ReadIdTooLong].
Proof.
  intros H. unfold wgsimReadMisaligned, idBufferSize, soft_exit.
  destruct (Z.ltb_spec (1024 - 1) (getIdLength read)); [reflexivity | lia].
Qed.

Lemma wgsimReadMisaligned_short read genomeLocation genome maxK lowOut highOut
    mem :
  getIdLength read <= 1023 ->
  wgsimReadMisaligned read genomeLocation genome maxK lowOut highOut mem
  = match decodeId genome (idBuffer read) with
    | inl e => Returned false [e] mem
    | inr d =>
        Returned
          (misaligned genomeLocation (intervalLow d) (intervalHigh d) maxK) []
          (storeOut (storeOut mem lowOut (intervalLow d)) highOut
             (intervalHigh d))
    end.
Proof.
  intros H. unfold wgsimReadMisaligned, idBufferSize.
  destruct (Z.ltb_spec (1024 - 1) (getIdLength read)); [lia | reflexivity].
Qed.

Lemma u32_small z : in_range z -> u32 z = z.
Proof. unfold in_range, u32. intros H. now apply Z.mod_small. Qed.

Lemma maxK_unsigned maxK : 0 <= maxK < 2 ^ 31 -> u32 maxK = maxK.
Proof.
  intros H. apply u32_small. unfold in_range, modulus.
  change (2 ^ 31) with 2147483648 in H. change (2 ^ 32) with 4294967296. lia.
Qed.

Lemma misaligned_rule genomeLocation low high maxK :
  0 <= maxK < 2 ^ 31 ->
  misaligned genomeLocation low high maxK = true
  <-> genomeLocation > u32 (high + maxK)
      \/ u32 (genomeLocation + maxK) < low.
Proof.
  intros H. unfold misaligned. rewrite (maxK_unsigned _ H).
  rewrite orb_true_iff, !Z.ltb_lt. lia.
Qed.

Lemma u32_le z : 0 <= z -> 0 <= u32 z <= z.
Proof.
  intros H. unfold u32, modulus. split.
  - apply Z.mod_pos_bound. lia.
  - apply Z.mod_le; lia.
Qed.

Lemma intervalLow_range d : in_range (intervalLow d).
Proof.
  unfold intervalLow, absOffset.
  pose proof (u32_range (u32 (offset1 d + offsetOfContig d) - 1)).
  pose proof (u32_range (u32 (offset2 d + offsetOfContig d) - 1)).
  unfold in_range in *. lia.
Qed.

Lemma intervalHigh_range d : in_range (intervalHigh d).
Proof.
  unfold intervalHigh, absOffset.
  pose proof (u32_range (u32 (offset1 d + offsetOfContig d) - 1)).
  pose proof (u32_range (u32 (offset2 d + offsetOfContig d) - 1)).
  unfold in_range in *. lia.
Qed.

(** ** The misalignment test *)

(** C1, as stated, fails: the identifier "top_1_6_0:0:0_0:0:0_0/1", on a
    contig that begins at 4294967290, decodes to the interval
    [4294967290, 4294967295]; with maxK = 5 the location 4294967292 is
    reported misaligned, although neither 4294967292 > 4294967295 + 5 nor
    4294967292 + 5 < 4294967290 holds: the sum high + maxK of line 155
    wraps to 4. *)
Lemma C1_plain_sums_fail :
  decodeId genome_top (idBuffer read_top)
  = ok {| contigName := str "top"; offset1 := 1; offset2 := 6;
          offsetOfContig := 4294967290 |}
  /\ intervalLow {| contigName := str "top"; offset1 := 1; offset2 := 6;
                    offsetOfContig := 4294967290 |} = 4294967290
  /\ intervalHigh {| contigName := str "top"; offset1 := 1; offset2 := 6;
                     offsetOfContig := 4294967290 |} = 4294967295
  /\ verdict (wgsimReadMisaligned read_top 4294967292 genome_top 5 None None
                mem0) = Some true
  /\ ~ (4294967292 > 4294967295 + 5 \/ 4294967292 + 5 < 4294967290).
Proof.
  repeat split; try (vm_compute; reflexivity). lia.
Qed.

(** C1, amended: for every identifier that decodes to an interval
    [low, high], every candidate location and every non-negative tolerance
    maxK, the function returns true (misaligned) if and only if
    genomeLocation > high + maxK or genomeLocation + maxK < low, the sums
    being the unsigned sums of the source, taken modulo 2^32; when neither
    sum leaves the unsigned range they are the plain sums.  For the interval
    [100, 200] and maxK = 5: 95 aligned, 94 misaligned, 205 aligned, 206
    misaligned. *)
Theorem C1_misaligned_iff :
  (forall read genomeLocation genome maxK lowOut highOut mem d,
      getIdLength read <= 1023 ->
      decodeId genome (idBuffer read) = ok d ->
      0 <= maxK < 2 ^ 31 ->
      exists b,
        verdict (wgsimReadMisaligned read genomeLocation genome maxK
                   lowOut highOut mem) = Some b
        /\ (b = true <->
            genomeLocation > u32 (intervalHigh d + maxK)
            \/ u32 (genomeLocation + maxK) < intervalLow d)
        /\ (in_range (intervalHigh d + maxK) ->
            in_range (genomeLocation + maxK) ->
            (b = true <->
             genomeLocation > intervalHigh d + maxK
             \/ genomeLocation + maxK < intervalLow d)))
  /\ decodeId genome1 (idBuffer read_100_200) = ok decoded_100_200
  /\ intervalLow decoded_100_200 = 100
  /\ intervalHigh decoded_100_200 = 200
  /\ verdict (wgsimReadMisaligned read_100_200 95 genome1 5 None None mem0)
     = Some false
  /\ verdict (wgsimReadMisaligned read_100_200 94 genome1 5 None None mem0)
     = Some true
  /\ verdict (wgsimReadMisaligned read_100_200 205 genome1 5 None None mem0)
     = Some false
  /\ verdict (wgsimReadMisaligned read_100_200 206 genome1 5 None None mem0)
     = Some true.
Proof.
  split; [|repeat split; vm_compute; reflexivity].
  intros read genomeLocation genome maxK lowOut highOut mem d Hlen Hd HK.
  rewrite (wgsimReadMisaligned_short _ _ _ _ _ _ _ Hlen), Hd.
  eexists. split; [reflexivity|]. split.
  - now apply misaligned_rule.
  - intros H1 H2. rewrite (misaligned_rule _ _ _ _ HK).
    now rewrite (u32_small _ H1), (u32_small _ H2).
Qed.

Lemma C1_misaligned_iff_witness :
  exists b,
    verdict (wgsimReadMisaligned read_100_200 94 genome1 5 (Some 0) (Some 1)
               mem0) = Some b
    /\ (b = true <->
        94 > u32 (intervalHigh decoded_100_200 + 5)
        \/ u32 (94 + 5) < intervalLow decoded_100_200)
    /\ (in_range (intervalHigh decoded_100_200 + 5) ->
        in_range (94 + 5) ->
        (b = true <->
         94 > intervalHigh decoded_100_200 + 5
         \/ 94 + 5 < intervalLow decoded_100_200)).
Proof.
  apply (proj1 C1_misaligned_iff read_100_200 94 genome1 5 (Some 0) (Some 1)
           mem0 decoded_100_200).
  - vm_compute. discriminate.
  - vm_compute. reflexivity.
  - lia.
Defined.

(** C5, as stated, fails: for the interval [4294967290, 4294967295] and
    maxK = 5 the sum high + maxK wraps to 4, and the candidate 4294967295,
    which lies in the interval, is reported misaligned. *)
Lemma C5_wraps :
  intervalLow {| contigName := str "top"; offset1 := 1; offset2 := 6;
                 offsetOfContig := 4294967290 |} = 4294967290
  /\ intervalHigh {| contigName := str "top"; offset1 := 1; offset2 := 6;
                     offsetOfContig := 4294967290 |} = 4294967295
  /\ u32 (4294967295 + 5) = 4
  /\ misaligned 4294967295 4294967290 4294967295 5 = true
  /\ ~ outsideTolerance 4294967295 4294967290 4294967295 5
  /\ verdict (wgsimReadMisaligned read_top 4294967295 genome_top 5 None None
                mem0) = Some true.
Proof.
  repeat split; try (vm_compute; reflexivity).
  unfold outsideTolerance. lia.
Qed.

(** C5, amended: the sums of the misalignment test are unsigned and wrap
    modulo 2^32.  A verdict "aligned" is right all the same: a candidate
    outside the tolerance, far above the interval or far below it, is never
    reported aligned; and when neither high + maxK nor
    genomeLocation + maxK reaches 2^32 the verdict is that of the rule
    without wrap-around. *)
Theorem C5_aligned_is_sound :
  forall genomeLocation low high maxK,
    in_range genomeLocation -> in_range low -> in_range high ->
    0 <= maxK < 2 ^ 31 ->
    (misaligned genomeLocation low high maxK = false ->
     ~ outsideTolerance genomeLocation low high maxK)
    /\ (in_range (high + maxK) -> in_range (genomeLocation + maxK) ->
        (misaligned genomeLocation low high maxK = true
         <-> outsideTolerance genomeLocation low high maxK)).
Proof.
  intros genomeLocation low high maxK Hg Hl Hh HK.
  unfold outsideTolerance, in_range in *. split.
  - intros H. pose proof (misaligned_rule genomeLocation low high maxK HK) as R.
    rewrite H in R.
    pose proof (u32_le (high + maxK)). pose proof (u32_le (genomeLocation + maxK)).
    intros [A|A].
    + assert (genomeLocation > u32 (high + maxK)) by lia.
      destruct R as [_ R]. discriminate R. now left.
    + assert (u32 (genomeLocation + maxK) < low) by lia.
      destruct R as [_ R]. discriminate R. now right.
  - intros H1 H2. rewrite (misaligned_rule _ _ _ _ HK).
    now rewrite (u32_small _ H1), (u32_small _ H2).
Qed.

Lemma C5_aligned_is_sound_witness :
  (misaligned 205 100 200 5 = false -> ~ outsideTolerance 205 100 200 5)
  /\ (in_range (200 + 5) -> in_range (205 + 5) ->
      (misaligned 205 100 200 5 = true <-> outsideTolerance 205 100 200 5)).
Proof.
  apply (C5_aligned_is_sound 205 100 200 5);
    unfold in_range, modulus; lia.
Defined.

(** ** The interval of a decoded identifier *)

(** C8: for every identifier that decodes, the interval written to the
    outputs has low <= high, low the minimum and high the maximum of the two
    absolute offsets, each of them offset + offsetOfContig - 1 as an
    unsigned: the contig's offset added once and 1 subtracted once; both
    are unsigned values. *)
Theorem C8_interval_ordered :
  forall read genomeLocation genome maxK l h mem d,
    getIdLength read <= 1023 ->
    decodeId genome (idBuffer read) = ok d ->
    l <> h ->
    exists b mem',
      wgsimReadMisaligned read genomeLocation genome maxK (Some l) (Some h) mem
      = Returned b [] mem'
      /\ mem' l <= mem' h
      /\ mem' l = Z.min (absolute (offsetOfContig d) (offset1 d))
                        (absolute (offsetOfContig d) (offset2 d))
      /\ mem' h = Z.max (absolute (offsetOfContig d) (offset1 d))
                        (absolute (offsetOfContig d) (offset2 d))
      /\ in_range (mem' l) /\ in_range (mem' h).
Proof.
  intros read genomeLocation genome maxK l h mem d Hlen Hd Hlh.
  rewrite (wgsimReadMisaligned_short _ _ _ _ _ _ _ Hlen), Hd.
  eexists. eexists. split; [reflexivity|].
  unfold storeOut, store. rewrite Z.eqb_refl.
  destruct (Z.eqb_spec l h) as [E|_]; [contradiction|].
  rewrite Z.eqb_refl.
  pose proof (intervalLow_range d) as Rl.
  pose proof (intervalHigh_range d) as Rh.
  unfold intervalLow, intervalHigh in *.
  rewrite !absOffset_absolute in *. repeat split; try apply Rl; try apply Rh.
  lia.
Qed.

Lemma C8_interval_ordered_witness :
  exists b mem',
    wgsimReadMisaligned read_100_200 94 genome1 5 (Some 0) (Some 1) mem0
    = Returned b [] mem'
    /\ mem' 0 <= mem' 1
    /\ mem' 0 = Z.min (absolute 0 101) (absolute 0 201)
    /\ mem' 1 = Z.max (absolute 0 101) (absolute 0 201)
    /\ in_range (mem' 0) /\ in_range (mem' 1).
Proof.
  apply (C8_interval_ordered read_100_200 94 genome1 5 0 1 mem0
           decoded_100_200).
  - vm_compute. discriminate.
  - vm_compute. reflexivity.
  - lia.
Defined.

(** ** Identifiers that do not fit the buffer *)

(** C9: an identifier of more than 1023 characters ends the call in
    [soft_exit(1)], the process being terminated, and not in a return; an
    identifier of at most 1023 characters never does: the call returns. *)
Theorem C9_long_identifier_is_fatal :
  forall read genomeLocation genome maxK lowOut highOut mem,
    (1023 < getIdLength read ->
     wgsimReadMisaligned read genomeLocation genome maxK lowOut highOut mem
     = Exited 1 [ReadIdTooLong])
    /\ (getIdLength read <= 1023 ->
        exists b err mem',
          wgsimReadMisaligned read genomeLocation genome maxK lowOut highOut
            mem = Returned b err mem').
Proof.
  intros read genomeLocation genome maxK lowOut highOut mem. split.
  - apply wgsimReadMisaligned_long.
  - intros H. rewrite (wgsimReadMisaligned_short _ _ _ _ _ _ _ H).
    destruct (decodeId genome (idBuffer read)); eauto.
Qed.

Lemma C9_long_identifier_is_fatal_witness :
  wgsimReadMisaligned read_1024 0 genome1 5 None None mem0
  = Exited 1 [ReadIdTooLong]
  /\ exists b err mem',
       wgsimReadMisaligned read_1023 0 genome1 5 None None mem0
       = Returned b err mem'.
Proof.
  split.
  - apply (proj1 (C9_long_identifier_is_fatal read_1024 0 genome1 5 None None
                    mem0)).
    vm_compute. reflexivity.
  - apply (proj2 (C9_long_identifier_is_fatal read_1023 0 genome1 5 None None
                    mem0)).
    vm_compute. discriminate.
Defined.

(** ** The outputs *)

(** C10: with non-null [lowOut] and [highOut], the call that decodes its
    identifier stores low at [lowOut] and then high at [highOut], whatever
    the verdict, and changes no other location; the call that fails to
    decode returns with the memory as it was. *)
Theorem C10_outputs :
  forall read genomeLocation genome maxK l h mem,
    getIdLength read <= 1023 ->
    match decodeId genome (idBuffer read) with
    | inr d =>
        exists b mem',
          wgsimReadMisaligned read genomeLocation genome maxK (Some l)
            (Some h) mem = Returned b [] mem'
          /\ mem' = store (store mem l (intervalLow d)) h (intervalHigh d)
          /\ mem' h = intervalHigh d
          /\ (l <> h -> mem' l = intervalLow d)
          /\ (forall a, a <> l -> a <> h -> mem' a = mem a)
    | inl e =>
        wgsimReadMisaligned read genomeLocation genome maxK (Some l) (Some h)
          mem = Returned false [e] mem
    end.
Proof.
  intros read genomeLocation genome maxK l h mem Hlen.
  rewrite (wgsimReadMisaligned_short _ _ _ _ _ _ _ Hlen).
  destruct (decodeId genome (idBuffer read)) as [e|d]; [reflexivity|].
  eexists. eexists. split; [reflexivity|]. split; [reflexivity|].
  cbn [storeOut]. unfold store. rewrite Z.eqb_refl. repeat split.
  - intros Hlh. destruct (Z.eqb_spec l h); [contradiction|].
    now rewrite Z.eqb_refl.
  - intros a Hl Hh.
    destruct (Z.eqb_spec a h); [contradiction|].
    now destruct (Z.eqb_spec a l).
Qed.

Lemma C10_outputs_witness :
  match decodeId genome1 (idBuffer read_100_200) with
  | inr d =>
      exists b mem',
        wgsimReadMisaligned read_100_200 94 genome1 5 (Some 0) (Some 1) mem0
        = Returned b [] mem'
        /\ mem' = store (store mem0 0 (intervalLow d)) 1 (intervalHigh d)
        /\ mem' 1 = intervalHigh d
        /\ (0 <> 1 -> mem' 0 = intervalLow d)
        /\ (forall a, a <> 0 -> a <> 1 -> mem' a = mem0 a)
  | inl e =>
      wgsimReadMisaligned read_100_200 94 genome1 5 (Some 0) (Some 1) mem0
      = Returned false [e] mem0
  end.
Proof.
  apply (C10_outputs read_100_200 94 genome1 5 0 1 mem0).
  vm_compute. discriminate.
Defined.

(** ** Identifiers that do not decode *)

(** C4, as stated, fails: the identifier "noColonHere" does not decode, and
    the call returns false, which is also what it returns for a read that
    decodes and is aligned. *)
Lemma C4_failure_is_false :
  decodeId genome1 (idBuffer read_noColon)
  = fail (MissingColon (str "noColonHere"))
  /\ wgsimReadMisaligned read_noColon 95 genome1 5 None None mem0
     = Returned false [MissingColon (str "noColonHere")] mem0
  /\ decodeId genome1 (idBuffer read_100_200) = ok decoded_100_200
  /\ wgsimReadMisaligned read_100_200 95 genome1 5 None None mem0
     = Returned false [] mem0
  /\ verdict (wgsimReadMisaligned read_noColon 95 genome1 5 None None mem0)
     = verdict (wgsimReadMisaligned read_100_200 95 genome1 5 None None mem0).
Proof. repeat split; vm_compute; reflexivity. Qed.

(** C4, amended: when the identifier does not decode, the call returns
    false, the value of the verdict "aligned", after printing on stderr the
    one diagnostic of the failure, and leaves the memory of the caller as
    it was; it never returns true, the verdict "misaligned". *)
Theorem C4_decode_failure :
  forall read genomeLocation genome maxK lowOut highOut mem e,
    getIdLength read <= 1023 ->
    decodeId genome (idBuffer read) = fail e ->
    wgsimReadMisaligned read genomeLocation genome maxK lowOut highOut mem
    = Returned false [e] mem.
Proof.
  intros read genomeLocation genome maxK lowOut highOut mem e Hlen He.
  now rewrite (wgsimReadMisaligned_short _ _ _ _ _ _ _ Hlen), He.
Qed.

Lemma C4_decode_failure_witness :
  wgsimReadMisaligned read_noColon 95 genome1 5 (Some 0) (Some 1) mem0
  = Returned false [MissingColon (str "noColonHere")] mem0.
Proof.
  apply (C4_decode_failure read_noColon 95 genome1 5 (Some 0) (Some 1) mem0).
  - vm_compute. discriminate.
  - vm_compute. reflexivity.
Defined.

(** ** Which exit a malformed identifier takes *)

Lemma underscoresIn_lacks s : lacks "_" s = true -> underscoresIn s = 0%nat.
Proof.
  unfold underscoresIn. induction s as [|x s IH]; simpl; [reflexivity|].
  intros H. apply andb_true_iff in H as [Hx Hs].
  apply negb_true_iff in Hx.
  destruct (ascii_dec x "_") as [->|_]; [discriminate Hx | now apply IH].
Qed.

Lemma underscoresIn_field pre f :
  lacks "_" f = true ->
  underscoresIn (pre ++ "_"%char :: f) = S (underscoresIn pre).
Proof.
  intros H. unfold underscoresIn.
  rewrite count_occ_app, count_occ_cons_eq by reflexivity.
  fold (underscoresIn f). rewrite (underscoresIn_lacks f H). lia.
Qed.

Lemma findUnderscores_scanFailure id :
  match scanFailure id with
  | Some e => findUnderscores id = fail e
  | None => exists u, findUnderscores id = ok u
  end.
Proof.
  unfold scanFailure, beforeFirstColon.
  destruct (findUnderscores_cases id) as [[Hc E]|(pre & rest & Hid & Hc & C)].
  { now rewrite (strchr_lacks _ _ Hc). }
  assert (Hs : strchr id ":" = Some (Z.of_nat (List.length pre)))
    by (rewrite Hid; now apply strchr_found).
  assert (Hf : firstn (Z.to_nat (Z.of_nat (List.length pre))) id = pre)
    by (rewrite Hid; apply firstn_prefix).
  rewrite Hs, Hf.
  destruct C as [[L E]|[(a & f3 & Hp & La & L3 & E)|
    [(a & f2 & f3 & Hp & La & L2 & L3 & E)|
     (name & f1 & f2 & f3 & Hp & L1 & L2 & L3 & E)]]].
  - now rewrite (underscoresIn_lacks _ L).
  - rewrite Hp, (underscoresIn_field _ _ L3), (underscoresIn_lacks _ La).
    exact E.
  - rewrite Hp, (underscoresIn_field _ _ L3), (underscoresIn_field _ _ L2),
      (underscoresIn_lacks _ La).
    exact E.
  - assert (U : underscoresIn pre = S (S (S (underscoresIn name)))).
    { rewrite Hp.
      now rewrite (underscoresIn_field _ _ L3), (underscoresIn_field _ _ L2),
        (underscoresIn_field _ _ L1). }
    rewrite U. eexists. exact E.
Qed.

(** C7, as stated, fails: "a_b_c_noUnderscorePattern:" has three underscores
    before its colon; the three of them are found and the exit taken is
    that of offset1, not one of the three for a missing underscore. *)
Lemma C7_three_underscores_found :
  underscoresIn (str "a_b_c_noUnderscorePattern") = 3%nat
  /\ findUnderscores (str "a_b_c_noUnderscorePattern:")
     = ok {| firstColon := 25; underscoreBeforeColon := 5;
             secondUnderscoreBeforeColon := 3;
             thirdUnderscoreBeforeColon := 1 |}
  /\ decodeId genome1 (str "a_b_c_noUnderscorePattern:")
     = fail (BadOffset1 (str "a_b_c_noUnderscorePattern:"))
  /\ wgsimReadMisaligned {| getId := str "a_b_c_noUnderscorePattern:" |} 0
       genome1 5 None None mem0
     = Returned false [BadOffset1 (str "a_b_c_noUnderscorePattern:")] mem0.
Proof. repeat split; vm_compute; reflexivity. Qed.

(** C7, amended: a malformed identifier takes the exit of the first check
    of the source that fails.  Without a colon, like "noColonHere" and the
    empty string, it is that of the missing colon; with a colon and 0, 1 or
    2 underscores before the first one, that of the first, second or third
    underscore; "a_b_c_noUnderscorePattern:", with its three underscores,
    takes the exit of offset1; and an identifier with a colon and three
    underscores before it only fails at the offsets or at the contig. *)
Theorem C7_failure_kinds :
  forall genome,
    (forall id,
        match scanFailure id with
        | Some e => decodeId genome id = fail e
        | None =>
            match decodeId genome id with
            | inl e => laterFailure e = true
            | inr _ => True
            end
        end)
    /\ decodeId genome (str "noColonHere")
       = fail (MissingColon (str "noColonHere"))
    /\ decodeId genome [] = fail (MissingColon [])
    /\ decodeId genome (str "a_b_c_noUnderscorePattern:")
       = fail (BadOffset1 (str "a_b_c_noUnderscorePattern:"))
    /\ decodeId genome (str "a_b_noUnderscorePattern:")
       = fail (MissingUnderscore3 (str "a_b_noUnderscorePattern:")).
Proof.
  intros genome. split; [|repeat split; vm_compute; reflexivity].
  intros id. pose proof (findUnderscores_scanFailure id) as H.
  destruct (scanFailure id) as [e|].
  - unfold decodeId. now rewrite H.
  - destruct H as [u Hu]. unfold decodeId. rewrite Hu.
    unfold ok at 1, bind at 1. unfold parseOffsets.
    destruct (sscanf_d _); [|reflexivity].
    destruct (_ =? _).
    + unfold ok at 1, bind at 1. unfold lookupContigName, check.
      destruct (_ <=? _); [reflexivity|].
      unfold ok at 1, bind at 1.
      now destruct (getOffsetOfContig _ _).
    + destruct (sscanf_d _); [|reflexivity].
      unfold ok at 1, bind at 1. unfold lookupContigName, check.
      destruct (_ <=? _); [reflexivity|].
      unfold ok at 1, bind at 1.
      now destruct (getOffsetOfContig _ _).
Qed.

(** ** The fields of a decoded identifier *)

Lemma decodeId_fields genome id d :
  decodeId genome id = ok d ->
  exists f1 f2 f3 rest,
    id = dialectId (contigName d) f1 f2 f3 rest
    /\ dialectFields (contigName d) f1 f2 f3 = true
    /\ sscanf_d f1 = Some (offset1 d)
    /\ match f2 with
       | [] => offset2 d = offset1 d
       | _ :: _ => sscanf_d f2 = Some (offset2 d)
       end.
Proof.
  intros H.
  destruct (findUnderscores id) as [e|u] eqn:Hu.
  { unfold decodeId in H. rewrite Hu in H. discriminate H. }
  destruct (findUnderscores_shape id u Hu)
    as (name & f1 & f2 & f3 & rest & -> & HF).
  rewrite (decodeId_dialect _ _ _ _ _ _ HF) in H.
  unfold dialectDecoding in H.
  destruct (sscanf_d f1) as [o1|] eqn:E1; [|discriminate H].
  destruct f2 as [|c f2].
  - destruct (contigNameMaxSize <=? len name); [discriminate H|].
    destruct (getOffsetOfContig genome name); [|discriminate H].
    injection H as <-. cbn [contigName offset1 offset2].
    exists f1, [], f3, rest. now repeat split.
  - destruct (sscanf_d (c :: f2)) as [o2|] eqn:E2; [|discriminate H].
    destruct (contigNameMaxSize <=? len name); [discriminate H|].
    destruct (getOffsetOfContig genome name); [|discriminate H].
    injection H as <-. cbn [contigName offset1 offset2].
    exists f1, (c :: f2), f3, rest. now repeat split.
Qed.

(** C3: the decoder takes the first colon of the identifier and, going back
    from it, three underscores.  On [name_f1_f2_f3:rest], where the three
    fields hold no underscore and no colon, [name] no colon, and [rest] is
    anything, it takes [name], underscores included, as the contig name,
    reads offset1 from [f1] and offset2 from [f2]; every identifier that
    decodes is of this form, with these values.  So
    "chr_1_100_200_0::0:0_2:0:a0_0/1" decodes to the contig "chr_1" and the
    offsets 100 and 200. *)
Theorem C3_backward_scan :
  forall genome,
    (forall name f1 f2 f3 rest,
        dialectFields name f1 f2 f3 = true ->
        decodeId genome (dialectId name f1 f2 f3 rest)
        = dialectDecoding genome name f1 f2 f3 rest)
    /\ (forall id d,
           decodeId genome id = ok d ->
           exists f1 f2 f3 rest,
             id = dialectId (contigName d) f1 f2 f3 rest
             /\ dialectFields (contigName d) f1 f2 f3 = true
             /\ sscanf_d f1 = Some (offset1 d)
             /\ match f2 with
                | [] => offset2 d = offset1 d
                | _ :: _ => sscanf_d f2 = Some (offset2 d)
                end)
    /\ (forall base,
           getOffsetOfContig genome (str "chr_1") = Some base ->
           decodeId genome (str "chr_1_100_200_0::0:0_2:0:a0_0/1")
           = ok {| contigName := str "chr_1"; offset1 := 100; offset2 := 200;
                   offsetOfContig := base |}).
Proof.
  intros genome. split; [|split].
  - intros name f1 f2 f3 rest H. now apply decodeId_dialect.
  - apply decodeId_fields.
  - intros base Hb.
    change (str "chr_1_100_200_0::0:0_2:0:a0_0/1")
      with (dialectId (str "chr_1") (str "100") (str "200") (str "0")
              (str ":0:0_2:0:a0_0/1")).
    rewrite decodeId_dialect by reflexivity.
    unfold dialectDecoding.
    change (sscanf_d (str "100")) with (Some 100).
    change (sscanf_d (str "200")) with (Some 200).
    change (contigNameMaxSize <=? len (str "chr_1")) with false.
    remember (str "chr_1") as nm eqn:Hnm.
    cbn. now rewrite Hb.
Qed.

Lemma C3_backward_scan_witness :
  decodeId genome1 (dialectId (str "chr_1") (str "100") (str "200") (str "0")
                      (str ":0:0_2:0:a0_0/1"))
  = dialectDecoding genome1 (str "chr_1") (str "100") (str "200") (str "0")
      (str ":0:0_2:0:a0_0/1")
  /\ decodeId genome1 (str "chr_1_100_200_0::0:0_2:0:a0_0/1")
     = ok {| contigName := str "chr_1"; offset1 := 100; offset2 := 200;
             offsetOfContig := 0 |}.
Proof.
  split.
  - apply (proj1 (C3_backward_scan genome1)). vm_compute. reflexivity.
  - apply (proj2 (proj2 (C3_backward_scan genome1)) 0). vm_compute.
    reflexivity.
Defined.

(** ** The second offset *)

Lemma at_offset_field1 name f1 f2 f3 rest :
  at_offset (dialectId name f1 f2 f3 rest) (len name + 1)
  = f1 ++ "_"%char :: f2 ++ "_"%char :: f3 ++ ":"%char :: rest.
Proof. unfold dialectId, len. apply at_offset_after. Qed.

Lemma at_offset_field2 name f1 f2 f3 rest :
  at_offset (dialectId name f1 f2 f3 rest) (len name + 1 + len f1 + 1)
  = f2 ++ "_"%char :: f3 ++ ":"%char :: rest.
Proof.
  replace (dialectId name f1 f2 f3 rest)
    with ((name ++ "_"%char :: f1)
            ++ "_"%char :: f2 ++ "_"%char :: f3 ++ ":"%char :: rest)
    by (unfold dialectId; now rewrite <- app_assoc, <- app_comm_cons).
  replace (len name + 1 + len f1)
    with (Z.of_nat (List.length (name ++ "_"%char :: f1)))
    by (unfold len; rewrite length_app; simpl; lia).
  apply at_offset_after.
Qed.

Lemma between_field2 name f1 f2 f3 rest :
  between (dialectId name f1 f2 f3 rest) (len name + 1 + len f1)
    (len name + 1 + len f1 + 1 + len f2)
  = f2.
Proof.
  unfold between. rewrite at_offset_field2.
  replace (len name + 1 + len f1 + 1 + len f2 - (len name + 1 + len f1) - 1)
    with (Z.of_nat (List.length f2)) by (unfold len; lia).
  apply firstn_prefix.
Qed.

Lemma decodeId_after_scan genome id u :
  findUnderscores id = ok u ->
  decodeId genome id
  = (offsets <- parseOffsets id u ;;
     contig <- lookupContigName genome id u ;;
     ok (decodedWith offsets contig)).
Proof. intros H. unfold decodeId. now rewrite H. Qed.

(** C6, as stated, fails: in "a__:" the first and the second underscore
    before the colon are next to each other, and the identifier does not
    decode, for want of a third underscore; in "chr_1_x__0:" they are next
    to each other as well, the third underscore is there and the contig is
    known, and the identifier does not decode, for want of a number after
    the third underscore. *)
Lemma C6_adjacent_does_not_decode :
  strchr (str "a__:") ":" = Some 3
  /\ underscoreBefore (str "a__:") 3 = 2
  /\ underscoreBefore (str "a__:") 2 = 1
  /\ decodeId genome1 (str "a__:") = fail (MissingUnderscore3 (str "a__:"))
  /\ findUnderscores (str "chr_1_x__0:")
     = ok {| firstColon := 10; underscoreBeforeColon := 8;
             secondUnderscoreBeforeColon := 7;
             thirdUnderscoreBeforeColon := 5 |}
  /\ decodeId genome1 (str "chr_1_x__0:")
     = fail (BadOffset1 (str "chr_1_x__0:")).
Proof. repeat split; vm_compute; reflexivity. Qed.

(** C6, amended: for every identifier in which the colon and the three
    underscores are found and offset1 is read, when the first and the
    second underscore before the colon are next to each other offset2 is
    offset1, and decoding goes on to the contig with no failure on offset2;
    otherwise offset2 is read, by [%d], from the characters between the
    second and the first underscore, and the failure is that of offset2
    when [%d] reads no number there. *)
Theorem C6_single_end_default :
  forall genome id u o1,
    findUnderscores id = ok u ->
    sscanf_d (at_offset id (thirdUnderscoreBeforeColon u + 1)) = Some o1 ->
    (underscoreBeforeColon u = secondUnderscoreBeforeColon u + 1 ->
     parseOffsets id u = ok (o1, o1)
     /\ decodeId genome id
        = (contig <- lookupContigName genome id u ;;
           ok (decodedWith (o1, o1) contig)))
    /\ (underscoreBeforeColon u <> secondUnderscoreBeforeColon u + 1 ->
        match
          sscanf_d (between id (secondUnderscoreBeforeColon u)
                      (underscoreBeforeColon u))
        with
        | Some o2 =>
            parseOffsets id u = ok (o1, o2)
            /\ decodeId genome id
               = (contig <- lookupContigName genome id u ;;
                  ok (decodedWith (o1, o2) contig))
        | None =>
            parseOffsets id u = fail (BadOffset2 id)
            /\ decodeId genome id = fail (BadOffset2 id)
        end).
Proof.
  intros genome id u o1 Hu H1.
  destruct (findUnderscores_shape id u Hu)
    as (name & f1 & f2 & f3 & rest & -> & HF).
  pose proof Hu as Hu'.
  rewrite (findUnderscores_dialect _ _ _ _ _ HF) in Hu'.
  injection Hu' as <-.
  cbn [underscoreBeforeColon secondUnderscoreBeforeColon
       thirdUnderscoreBeforeColon] in *.
  rewrite at_offset_field1,
    (sscanf_d_stop f1 _ _ underscore_stops_number) in H1.
  rewrite (decodeId_after_scan _ _ _ Hu).
  rewrite parseOffsets_dialect, H1, between_field2.
  split; intros A.
  - assert (f2 = []) as ->.
    { destruct f2; [reflexivity|]. unfold len in A.
      simpl List.length in A. lia. }
    split; reflexivity.
  - destruct f2 as [|c f2]; [unfold len in A; simpl in A; lia|].
    destruct (sscanf_d (c :: f2)); split; reflexivity.
Qed.

Lemma C6_single_end_default_witness :
  (parseOffsets (str "chr_1_100__0:x")
     {| firstColon := 12; underscoreBeforeColon := 10;
        secondUnderscoreBeforeColon := 9; thirdUnderscoreBeforeColon := 5 |}
   = ok (100, 100)
   /\ decodeId genome1 (str "chr_1_100__0:x")
      = (contig <- lookupContigName genome1 (str "chr_1_100__0:x")
                     {| firstColon := 12; underscoreBeforeColon := 10;
                        secondUnderscoreBeforeColon := 9;
                        thirdUnderscoreBeforeColon := 5 |} ;;
         ok (decodedWith (100, 100) contig)))
  /\ decodeId genome1 (str "chr_1_100__0:x")
     = ok {| contigName := str "chr_1"; offset1 := 100; offset2 := 100;
             offsetOfContig := 0 |}.
Proof.
  split.
  - apply (proj1 (C6_single_end_default genome1 (str "chr_1_100__0:x")
                    {| firstColon := 12; underscoreBeforeColon := 10;
                       secondUnderscoreBeforeColon := 9;
                       thirdUnderscoreBeforeColon := 5 |} 100
                    eq_refl eq_refl)).
    reflexivity.
  - vm_compute. reflexivity.
Defined.

(** ** Generating an identifier and decoding it *)

(** C2, as stated, fails: the identifier generated for a contig whose name
    has 200 characters, none of them a colon, does not decode; the call
    takes the exit of the contig name too big and stores no interval. *)
Lemma C2_long_contig_name :
  lacks ":" (name contig_200) = true
  /\ lacks "_" (name contig_200) = true
  /\ getOffsetOfContig genome_200 (name contig_200) = Some 0
  /\ getIdLength read_200 = 222
  /\ decodeId genome_200 (idBuffer read_200)
     = fail (ContigNameTooLong (getId read_200))
  /\ wgsimReadMisaligned read_200 0 genome_200 5 (Some 0) (Some 1) mem0
     = Returned false [ContigNameTooLong (getId read_200)] mem0.
Proof. repeat split; vm_compute; reflexivity. Qed.

(** C2, amended: for every contig whose name has fewer than 200 characters,
    none of them a colon (underscores are allowed), and is known to the
    genome, every offsetInContig, every readLength and both values of
    firstHalf, the generated identifier decodes: to the contig's name, to
    the offsets offsetInContig + 1 and offsetInContig + readLength, and
    so to low the minimum and high the maximum of the two absolute
    coordinates abs(offsetInContig + 1) and abs(offsetInContig +
    readLength), abs adding the contig's offset and subtracting 1; these
    are the values stored at the outputs. *)
Theorem C2_round_trip :
  forall genome contig offsetInContig readLength firstHalf base
         genomeLocation maxK lowOut highOut mem,
    lacks ":" (c_str (name contig)) = true ->
    len (c_str (name contig)) < contigNameMaxSize ->
    getOffsetOfContig genome (c_str (name contig)) = Some base ->
    in_range offsetInContig ->
    in_range readLength ->
    let read :=
      {| getId :=
           wgsimGenerateIDString contig offsetInContig readLength firstHalf |}
    in
    let low := Z.min (absolute base (offsetInContig + 1))
                     (absolute base (offsetInContig + readLength)) in
    let high := Z.max (absolute base (offsetInContig + 1))
                      (absolute base (offsetInContig + readLength)) in
    decodeId genome (idBuffer read)
    = ok {| contigName := c_str (name contig);
            offset1 := u32 (offsetInContig + 1);
            offset2 := u32 (offsetInContig + readLength);
            offsetOfContig := base |}
    /\ low <= high
    /\ exists b,
         wgsimReadMisaligned read genomeLocation genome maxK lowOut highOut
           mem
         = Returned b [] (storeOut (storeOut mem lowOut low) highOut high).
Proof.
  intros genome contig offsetInContig readLength firstHalf base
    genomeLocation maxK lowOut highOut mem Hc Hl Hg Ho Hr read low high.
  pose proof (generated_length contig offsetInContig readLength firstHalf Hl)
    as L.
  assert (B : idBuffer read
              = wgsimGenerateIDString contig offsetInContig readLength
                  firstHalf).
  { apply idBuffer_whole; [exact L | apply generated_lacks_NUL]. }
  assert (D : decodeId genome (idBuffer read)
              = ok {| contigName := c_str (name contig);
                      offset1 := u32 (offsetInContig + 1);
                      offset2 := u32 (offsetInContig + readLength);
                      offsetOfContig := base |}).
  { rewrite B. now apply decodeId_generated. }
  split; [exact D|]. split; [unfold low, high; lia|].
  rewrite wgsimReadMisaligned_short by exact L. rewrite D.
  unfold ok. cbv beta iota. unfold intervalLow, intervalHigh.
  cbn [offset1 offset2 offsetOfContig]. rewrite !absOffset_u32.
  eexists. reflexivity.
Qed.

Lemma C2_round_trip_witness :
  decodeId genome1
    (idBuffer {| getId := wgsimGenerateIDString chr_1 99 101 true |})
  = ok {| contigName := c_str (name chr_1);
          offset1 := u32 (99 + 1);
          offset2 := u32 (99 + 101);
          offsetOfContig := 0 |}
  /\ Z.min (absolute 0 (99 + 1)) (absolute 0 (99 + 101))
     <= Z.max (absolute 0 (99 + 1)) (absolute 0 (99 + 101))
  /\ exists b,
       wgsimReadMisaligned
         {| getId := wgsimGenerateIDString chr_1 99 101 true |} 150 genome1 5
         (Some 0) (Some 1) mem0
       = Returned b []
           (storeOut
              (storeOut mem0 (Some 0)
                 (Z.min (absolute 0 (99 + 1)) (absolute 0 (99 + 101))))
              (Some 1)
              (Z.max (absolute 0 (99 + 1)) (absolute 0 (99 + 101)))).
Proof.
  apply (C2_round_trip genome1 chr_1 99 101 true 0 150 5 (Some 0) (Some 1)
           mem0).
  - vm_compute. reflexivity.
  - vm_compute. reflexivity.
  - vm_compute. reflexivity.
  - unfold in_range, modulus. lia.
  - unfold in_range, modulus. lia.
Defined.


(** * Further properties of the decoder *)

Lemma nth_len pre c tail :
  nth (Z.to_nat (len pre)) (pre ++ c :: tail) NUL = c.
Proof. unfold len. rewrite Nat2Z.id. apply nth_middle. Qed.

Lemma len_app s t : len (s ++ t) = len s + len t.
Proof. unfold len. rewrite length_app. lia. Qed.

Lemma len_cons c s : len (c :: s) = 1 + len s.
Proof. unfold len. simpl List.length. lia. Qed.

Lemma len_nonneg s : 0 <= len s.
Proof. unfold len. lia. Qed.

Lemma between_fields pre c f d tail :
  between (pre ++ c :: f ++ d :: tail) (len pre) (len (pre ++ c :: f)) = f.
Proof.
  unfold between. unfold len at 3. rewrite at_offset_after.
  replace (len (pre ++ c :: f) - len pre - 1) with (Z.of_nat (List.length f))
    by (rewrite len_app, len_cons; unfold len; lia).
  apply firstn_prefix.
Qed.

(** X1: What lines 63-103 leave in the four pointers: they lie inside the
    identifier, in the order third underscore, second, first, colon; each
    points at the character it is named after; and no colon precedes the
    one found. *)
Theorem scan_pointers_in_order id u :
  findUnderscores id = ok u ->
  0 <= thirdUnderscoreBeforeColon u
  /\ thirdUnderscoreBeforeColon u < secondUnderscoreBeforeColon u
  /\ secondUnderscoreBeforeColon u < underscoreBeforeColon u
  /\ underscoreBeforeColon u < firstColon u
  /\ firstColon u < len id
  /\ nth (Z.to_nat (thirdUnderscoreBeforeColon u)) id NUL = "_"%char
  /\ nth (Z.to_nat (secondUnderscoreBeforeColon u)) id NUL = "_"%char
  /\ nth (Z.to_nat (underscoreBeforeColon u)) id NUL = "_"%char
  /\ nth (Z.to_nat (firstColon u)) id NUL = ":"%char
  /\ lacks ":" (firstn (Z.to_nat (firstColon u)) id) = true
  /\ lacks "_" (between id (underscoreBeforeColon u) (firstColon u)) = true
  /\ lacks "_" (between id (secondUnderscoreBeforeColon u)
                  (underscoreBeforeColon u)) = true
  /\ lacks "_" (between id (thirdUnderscoreBeforeColon u)
                  (secondUnderscoreBeforeColon u)) = true.
Proof.
  intros Hu.
  destruct (findUnderscores_shape id u Hu)
    as (name & f1 & f2 & f3 & rest & -> & HF).
  rewrite (findUnderscores_dialect _ _ _ _ _ HF) in Hu.
  injection Hu as <-.
  cbn [underscoreBeforeColon secondUnderscoreBeforeColon
       thirdUnderscoreBeforeColon firstColon].
  pose proof (len_nonneg name) as N0. pose proof (len_nonneg f1) as N1.
  pose proof (len_nonneg f2) as N2. pose proof (len_nonneg f3) as N3.
  pose proof (len_nonneg rest) as N4.
  unfold dialectFields in HF. rewrite !andb_true_iff in HF.
  destruct HF as [[[[[[Hn H1] H1'] H2] H2'] H3] H3'].
  set (p2 := name ++ "_"%char :: f1).
  set (p3 := p2 ++ "_"%char :: f2).
  set (p4 := p3 ++ "_"%char :: f3).
  assert (L2 : len name + 1 + len f1 = len p2)
    by (unfold p2; rewrite len_app, len_cons; lia).
  assert (L3 : len name + 1 + len f1 + 1 + len f2 = len p3)
    by (unfold p3; rewrite len_app, len_cons; lia).
  assert (L4 : len name + 1 + len f1 + 1 + len f2 + 1 + len f3 = len p4)
    by (unfold p4; rewrite len_app, len_cons; lia).
  assert (E4 : dialectId name f1 f2 f3 rest = p4 ++ ":"%char :: rest)
    by (symmetry; apply dialectId_nested).
  assert (E3 : dialectId name f1 f2 f3 rest
               = p3 ++ "_"%char :: f3 ++ ":"%char :: rest)
    by (rewrite E4; unfold p4; now rewrite <- app_assoc).
  assert (E2 : dialectId name f1 f2 f3 rest
               = p2 ++ "_"%char :: f2 ++ "_"%char :: f3 ++ ":"%char :: rest)
    by (rewrite E3; unfold p3; now rewrite <- app_assoc).
  assert (C4 : lacks ":" p4 = true).
  { unfold p4, p3, p2. repeat (rewrite lacks_app || rewrite lacks_cons).
    now rewrite Hn, H1', H2', H3'. }
  split; [lia|]. split; [lia|]. split; [lia|]. split; [lia|].
  split; [rewrite E4, len_app, len_cons, L4; lia|].
  split; [unfold dialectId; apply nth_len|].
  split; [rewrite L2, E2; apply nth_len|].
  split; [rewrite L3, E3; apply nth_len|].
  split; [rewrite L4, E4; apply nth_len|].
  split; [rewrite L4, E4; unfold len; now rewrite firstn_prefix|].
  split; [|split].
  - rewrite L4, L3, E3. unfold p4. now rewrite between_fields.
  - rewrite between_field2. exact H2.
  - rewrite L2. unfold dialectId, p2.
    rewrite (between_fields name "_" f1 "_"
               (f2 ++ "_"%char :: f3 ++ ":"%char :: rest)).
    exact H1.
Qed.

Lemma scan_pointers_in_order_witness :
  0 <= 5 /\ 5 < 9 /\ 9 < 13 /\ 13 < 15
  /\ 15 < len (str "chr_1_100_200_0::0:0_2:0:a0_0/1")
  /\ nth (Z.to_nat 5) (str "chr_1_100_200_0::0:0_2:0:a0_0/1") NUL = "_"%char
  /\ nth (Z.to_nat 9) (str "chr_1_100_200_0::0:0_2:0:a0_0/1") NUL = "_"%char
  /\ nth (Z.to_nat 13) (str "chr_1_100_200_0::0:0_2:0:a0_0/1") NUL = "_"%char
  /\ nth (Z.to_nat 15) (str "chr_1_100_200_0::0:0_2:0:a0_0/1") NUL = ":"%char
  /\ lacks ":" (firstn (Z.to_nat 15) (str "chr_1_100_200_0::0:0_2:0:a0_0/1"))
     = true
  /\ lacks "_" (between (str "chr_1_100_200_0::0:0_2:0:a0_0/1") 13 15) = true
  /\ lacks "_" (between (str "chr_1_100_200_0::0:0_2:0:a0_0/1") 9 13) = true
  /\ lacks "_" (between (str "chr_1_100_200_0::0:0_2:0:a0_0/1") 5 9) = true.
Proof.
  apply (scan_pointers_in_order (str "chr_1_100_200_0::0:0_2:0:a0_0/1")
           {| firstColon := 15; underscoreBeforeColon := 13;
              secondUnderscoreBeforeColon := 9;
              thirdUnderscoreBeforeColon := 5 |}).
  vm_compute. reflexivity.
Defined.

Lemma sscanf_d_range s v : sscanf_d s = Some v -> in_range v.
Proof.
  unfold sscanf_d.
  destruct (match skip_space s with
            | [] => (false, skip_space s)
            | c :: rest =>
                if Ascii.eqb c "-" then (true, rest)
                else if Ascii.eqb c "+" then (false, rest)
                else (false, skip_space s)
            end) as [negative s2].
  destruct s2 as [|c r]; [discriminate|].
  destruct (isdigit c); [|discriminate].
  intros [= <-]. apply u32_range.
Qed.

(** X2: What a decoding that gets through has in its locals: the contig name
    is the part of the identifier before an underscore, it has fewer than
    200 characters, so that it fits [contigName] with its terminator, and no
    colon; the genome knows it, with the offset decoded; the two offsets are
    unsigned values. *)
Theorem decoded_locals genome id d :
  decodeId genome id = ok d ->
  (exists tail, id = contigName d ++ "_"%char :: tail)
  /\ len (contigName d) < contigNameMaxSize
  /\ lacks ":" (contigName d) = true
  /\ getOffsetOfContig genome (contigName d) = Some (offsetOfContig d)
  /\ in_range (offset1 d) /\ in_range (offset2 d).
Proof.
  intros H.
  destruct (findUnderscores id) as [e|u] eqn:Hu.
  { unfold decodeId in H. rewrite Hu in H. discriminate H. }
  destruct (findUnderscores_shape id u Hu)
    as (name & f1 & f2 & f3 & rest & -> & HF).
  rewrite (decodeId_dialect _ _ _ _ _ _ HF) in H.
  unfold dialectDecoding in H.
  destruct (sscanf_d f1) as [o1|] eqn:E1; [|discriminate H].
  pose proof (sscanf_d_range _ _ E1) as R1.
  assert (Hn : lacks ":" name = true).
  { unfold dialectFields in HF. rewrite !andb_true_iff in HF. tauto. }
  destruct (match f2 with [] => Some o1 | _ :: _ => sscanf_d f2 end)
    as [o2|] eqn:E2; [|discriminate H].
  assert (R2 : in_range o2).
  { destruct f2; [injection E2 as <-; exact R1|].
    exact (sscanf_d_range _ _ E2). }
  destruct (Z.leb_spec contigNameMaxSize (len name)); [discriminate H|].
  destruct (getOffsetOfContig genome name) as [base|] eqn:G; [|discriminate H].
  injection H as <-. cbn [contigName offset1 offset2 offsetOfContig].
  split; [unfold dialectId; eexists; reflexivity|].
  repeat split; try assumption; apply R1 || apply R2.
Qed.

Lemma decoded_locals_witness :
  (exists tail,
      str "chr_1_100_200_0::0:0_2:0:a0_0/1"
      = str "chr_1" ++ "_"%char :: tail)
  /\ len (str "chr_1") < contigNameMaxSize
  /\ lacks ":" (str "chr_1") = true
  /\ getOffsetOfContig genome1 (str "chr_1") = Some 0
  /\ in_range 100 /\ in_range 200.
Proof.
  apply (decoded_locals genome1 (str "chr_1_100_200_0::0:0_2:0:a0_0/1")
           {| contigName := str "chr_1"; offset1 := 100; offset2 := 200;
              offsetOfContig := 0 |}).
  vm_compute. reflexivity.
Defined.

Lemma first_colon_unique pre rest pre' rest' :
  lacks ":" pre = true -> lacks ":" pre' = true ->
  pre ++ ":"%char :: rest = pre' ++ ":"%char :: rest' ->
  pre = pre' /\ rest = rest'.
Proof.
  intros H H' E.
  pose proof (strchr_found ":"%char pre rest H) as S1.
  pose proof (strchr_found ":"%char pre' rest' H') as S2.
  rewrite E, S2 in S1. injection S1 as L. apply Nat2Z.inj in L.
  assert (P : pre = pre').
  { rewrite <- (firstn_prefix pre (":"%char :: rest)), E.
    rewrite Nat2Z.id, <- L, <- (Nat2Z.id (List.length pre')).
    apply firstn_prefix. }
  subst pre'. apply app_inv_head in E. now injection E.
Qed.

Lemma beforeFirstColon_found pre rest :
  lacks ":" pre = true -> beforeFirstColon (pre ++ ":"%char :: rest) = Some pre.
Proof.
  intros H. unfold beforeFirstColon.
  now rewrite (strchr_found _ _ _ H), firstn_prefix.
Qed.

Lemma decodingOf_dialectDecoding genome name f1 f2 f3 rest rest' :
  decodingOf (dialectDecoding genome name f1 f2 f3 rest)
  = decodingOf (dialectDecoding genome name f1 f2 f3 rest').
Proof.
  unfold dialectDecoding.
  destruct (sscanf_d f1); [|reflexivity].
  destruct (match f2 with [] => Some z | _ :: _ => sscanf_d f2 end);
    [|reflexivity].
  destruct (contigNameMaxSize <=? len name); [reflexivity|].
  now destruct (getOffsetOfContig genome name).
Qed.

(** X3: What follows the first colon of the identifier has no part in the
    decoding: two identifiers that agree up to their first colon take the
    same exit or decode to the same values. *)
Theorem after_colon_ignored genome pre rest rest' :
  lacks ":" pre = true ->
  decodingOf (decodeId genome (pre ++ ":"%char :: rest))
  = decodingOf (decodeId genome (pre ++ ":"%char :: rest')).
Proof.
  intros Hc.
  pose proof (findUnderscores_scanFailure (pre ++ ":"%char :: rest)) as A.
  pose proof (findUnderscores_scanFailure (pre ++ ":"%char :: rest')) as B.
  unfold scanFailure in A, B.
  rewrite (beforeFirstColon_found pre rest Hc) in A.
  rewrite (beforeFirstColon_found pre rest' Hc) in B.
  destruct (underscoresIn pre) as [|[|[|n]]];
    try (unfold decodeId; rewrite A, B; reflexivity).
  destruct A as [u Hu].
  destruct (findUnderscores_shape _ u Hu)
    as (name & f1 & f2 & f3 & rest0 & E & HF).
  rewrite <- dialectId_nested in E.
  assert (C4 : lacks ":" (((name ++ "_"%char :: f1) ++ "_"%char :: f2)
                            ++ "_"%char :: f3) = true).
  { unfold dialectFields in HF. rewrite !andb_true_iff in HF.
    destruct HF as [[[[[[Hn H1] H1'] H2] H2'] H3] H3'].
    repeat (rewrite lacks_app || rewrite lacks_cons).
    now rewrite Hn, H1', H2', H3'. }
  destruct (first_colon_unique _ _ _ _ Hc C4 E) as [-> ->].
  rewrite !dialectId_nested, !(decodeId_dialect _ _ _ _ _ _ HF).
  apply decodingOf_dialectDecoding.
Qed.

Lemma after_colon_ignored_witness :
  decodingOf (decodeId genome1 (str "chr_1_100_200_0" ++ ":"%char :: str "x"))
  = decodingOf
      (decodeId genome1
         (str "chr_1_100_200_0" ++ ":"%char :: str ":0:0_2:0:a0_0/1")).
Proof.
  apply (after_colon_ignored genome1 (str "chr_1_100_200_0") (str "x")
           (str ":0:0_2:0:a0_0/1")).
  vm_compute. reflexivity.
Defined.

(** X4: The offsets are read before the contig name is looked at: an identifier
    of the dialect whose first offset field holds no number takes the exit
    of offset1, and one whose second offset field, not empty, holds no
    number that of offset2, whatever the length of the contig name and
    whether or not the genome knows it. *)
Theorem offsets_checked_first genome name f1 f2 f3 rest :
  dialectFields name f1 f2 f3 = true ->
  (sscanf_d f1 = None ->
   decodeId genome (dialectId name f1 f2 f3 rest)
   = fail (BadOffset1 (dialectId name f1 f2 f3 rest)))
  /\ (sscanf_d f1 <> None -> f2 <> [] -> sscanf_d f2 = None ->
      decodeId genome (dialectId name f1 f2 f3 rest)
      = fail (BadOffset2 (dialectId name f1 f2 f3 rest))).
Proof.
  intros HF. rewrite (decodeId_dialect _ _ _ _ _ _ HF).
  unfold dialectDecoding. split.
  - intros ->. reflexivity.
  - intros H1 H2 ->. destruct (sscanf_d f1); [|contradiction].
    destruct f2; [contradiction | reflexivity].
Qed.

Lemma offsets_checked_first_witness :
  decodeId genome_200
    (dialectId (repeat "a"%char 200) (str "x") (str "5") (str "0") (str "r"))
  = fail (BadOffset1
            (dialectId (repeat "a"%char 200) (str "x") (str "5") (str "0")
               (str "r")))
  /\ decodeId genome1
       (dialectId (str "unknown") (str "5") (str "y") (str "0") (str "r"))
     = fail (BadOffset2
               (dialectId (str "unknown") (str "5") (str "y") (str "0")
                  (str "r"))).
Proof.
  split.
  - apply (proj1 (offsets_checked_first genome_200 (repeat "a"%char 200)
                    (str "x") (str "5") (str "0") (str "r") eq_refl)).
    vm_compute. reflexivity.
  - apply (proj2 (offsets_checked_first genome1 (str "unknown")
                    (str "5") (str "y") (str "0") (str "r") eq_refl)).
    + vm_compute. discriminate.
    + discriminate.
    + vm_compute. reflexivity.
Defined.

(** X5: An identifier of the dialect with a contig name that the genome does not
    know, its offsets read and its name short enough, takes the exit of the
    unknown contig: the call prints the contig name, not the identifier,
    returns false and stores nothing. *)
Theorem unknown_contig_reported :
  forall genome name f1 f2 f3 rest o1 genomeLocation maxK lowOut highOut mem,
    dialectFields name f1 f2 f3 = true ->
    sscanf_d f1 = Some o1 ->
    (f2 = [] \/ sscanf_d f2 <> None) ->
    len name < contigNameMaxSize ->
    getOffsetOfContig genome name = None ->
    len (dialectId name f1 f2 f3 rest) <= 1023 ->
    lacks NUL (dialectId name f1 f2 f3 rest) = true ->
    wgsimReadMisaligned {| getId := dialectId name f1 f2 f3 rest |}
      genomeLocation genome maxK lowOut highOut mem
    = Returned false [UnknownContig name] mem.
Proof.
  intros genome name f1 f2 f3 rest o1 genomeLocation maxK lowOut highOut mem
    HF H1 H2 Hl Hg L N.
  rewrite wgsimReadMisaligned_short
    by (unfold getIdLength; cbn [getId]; exact L).
  rewrite (idBuffer_whole _ L N), (decodeId_dialect _ _ _ _ _ _ HF).
  unfold dialectDecoding. rewrite H1.
  assert (E : exists o2,
             match f2 with [] => Some o1 | _ :: _ => sscanf_d f2 end
             = Some o2).
  { destruct H2 as [->|H2]; [now exists o1|].
    destruct f2; [now exists o1|].
    destruct (sscanf_d (a :: f2)) as [o2|]; [now exists o2 | contradiction]. }
  destruct E as [o2 ->].
  destruct (Z.leb_spec contigNameMaxSize (len name)); [lia|].
  now rewrite Hg.
Qed.

Lemma unknown_contig_reported_witness :
  wgsimReadMisaligned
    {| getId := dialectId (str "chrX") (str "100") (str "200") (str "0")
                  (str "r") |}
    150 genome1 5 (Some 0) (Some 1) mem0
  = Returned false [UnknownContig (str "chrX")] mem0.
Proof.
  apply (unknown_contig_reported genome1 (str "chrX") (str "100") (str "200")
           (str "0") (str "r") 100 150 5 (Some 0) (Some 1) mem0).
  - vm_compute. reflexivity.
  - vm_compute. reflexivity.
  - right. vm_compute. discriminate.
  - vm_compute. reflexivity.
  - vm_compute. reflexivity.
  - vm_compute. discriminate.
  - vm_compute. reflexivity.
Defined.

Lemma c_str_cut s t : lacks NUL s = true -> c_str (s ++ NUL :: t) = s.
Proof.
  induction s as [|c s IH]; simpl; [reflexivity|].
  intros H. apply andb_true_iff in H as [Hc Hs].
  apply negb_true_iff in Hc. now rewrite Hc, (IH Hs).
Qed.

(** X6: An identifier that holds a NUL character is decoded as the identifier
    cut at its first NUL: [strncpy] stops there.  Its full length is what
    line 56 tests. *)
Theorem identifier_cut_at_NUL :
  forall s t genomeLocation genome maxK lowOut highOut mem,
    lacks NUL s = true ->
    len (s ++ NUL :: t) <= 1023 ->
    wgsimReadMisaligned {| getId := s ++ NUL :: t |} genomeLocation genome
      maxK lowOut highOut mem
    = wgsimReadMisaligned {| getId := s |} genomeLocation genome maxK lowOut
        highOut mem.
Proof.
  intros s t genomeLocation genome maxK lowOut highOut mem N L.
  assert (Ls : len s <= 1023)
    by (rewrite len_app, len_cons in L; pose proof (len_nonneg t); lia).
  rewrite !wgsimReadMisaligned_short
    by (unfold getIdLength; cbn [getId]; assumption).
  rewrite (idBuffer_whole s Ls N).
  assert (B : idBuffer {| getId := s ++ NUL :: t |} = s).
  { unfold idBuffer, getIdLength, idBufferSize. cbn [getId].
    fold (len (s ++ NUL :: t)). rewrite Z.min_l by lia. unfold len.
    rewrite Nat2Z.id, firstn_all. now apply c_str_cut. }
  now rewrite B.
Qed.

Lemma identifier_cut_at_NUL_witness :
  wgsimReadMisaligned
    {| getId := str "chr_1_101_201_0:0" ++ NUL :: str "_9_9_9:" |}
    95 genome1 5 (Some 0) (Some 1) mem0
  = wgsimReadMisaligned {| getId := str "chr_1_101_201_0:0" |}
      95 genome1 5 (Some 0) (Some 1) mem0.
Proof.
  apply (identifier_cut_at_NUL (str "chr_1_101_201_0:0") (str "_9_9_9:") 95
           genome1 5 (Some 0) (Some 1) mem0).
  - vm_compute. reflexivity.
  - vm_compute. discriminate.
Defined.

(** X7: A single-end identifier, the one whose first and second underscore
    before the colon touch, decodes to an interval of one position:
    low = high = offset1 + offsetOfContig - 1. *)
Theorem single_end_interval genome id u d :
  findUnderscores id = ok u ->
  underscoreBeforeColon u = secondUnderscoreBeforeColon u + 1 ->
  decodeId genome id = ok d ->
  offset2 d = offset1 d
  /\ intervalLow d = intervalHigh d
  /\ intervalLow d = absolute (offsetOfContig d) (offset1 d).
Proof.
  intros Hu A H. rewrite (decodeId_after_scan _ _ _ Hu) in H.
  unfold parseOffsets in H. rewrite A, Z.eqb_refl in H.
  destruct (sscanf_d _) as [o1|]; [|discriminate H].
  unfold ok at 1, bind at 1 in H.
  destruct (lookupContigName genome id u) as [e|c]; [discriminate H|].
  injection H as <-. unfold intervalLow, intervalHigh.
  cbn [decodedWith offset1 offset2 offsetOfContig fst snd].
  rewrite absOffset_absolute. repeat split; lia.
Qed.

Lemma single_end_interval_witness :
  offset2 {| contigName := str "chr_1"; offset1 := 100; offset2 := 100;
             offsetOfContig := 0 |}
  = offset1 {| contigName := str "chr_1"; offset1 := 100; offset2 := 100;
               offsetOfContig := 0 |}
  /\ intervalLow {| contigName := str "chr_1"; offset1 := 100;
                    offset2 := 100; offsetOfContig := 0 |}
     = intervalHigh {| contigName := str "chr_1"; offset1 := 100;
                       offset2 := 100; offsetOfContig := 0 |}
  /\ intervalLow {| contigName := str "chr_1"; offset1 := 100;
                    offset2 := 100; offsetOfContig := 0 |}
     = absolute 0 100.
Proof.
  apply (single_end_interval genome1 (str "chr_1_100__0:x")
           {| firstColon := 12; underscoreBeforeColon := 10;
              secondUnderscoreBeforeColon := 9;
              thirdUnderscoreBeforeColon := 5 |}).
  - vm_compute. reflexivity.
  - reflexivity.
  - vm_compute. reflexivity.
Defined.

(** X8: The order of the two offsets in the identifier does not matter: with
    the two offset fields exchanged, the identifier decodes to the same
    interval, or fails to decode as well. *)
Theorem offsets_exchanged genome name f1 f2 f3 rest :
  dialectFields name f1 f2 f3 = true ->
  f1 <> [] -> f2 <> [] ->
  intervalOf (decodeId genome (dialectId name f1 f2 f3 rest))
  = intervalOf (decodeId genome (dialectId name f2 f1 f3 rest)).
Proof.
  intros HF N1 N2.
  assert (HF' : dialectFields name f2 f1 f3 = true).
  { unfold dialectFields in *. rewrite !andb_true_iff in *. tauto. }
  rewrite (decodeId_dialect _ _ _ _ _ _ HF), (decodeId_dialect _ _ _ _ _ _ HF').
  unfold dialectDecoding.
  destruct f1 as [|c1 f1]; [contradiction|].
  destruct f2 as [|c2 f2]; [contradiction|].
  destruct (sscanf_d (c1 :: f1)) as [o1|];
    destruct (sscanf_d (c2 :: f2)) as [o2|]; try reflexivity.
  destruct (contigNameMaxSize <=? len name); [reflexivity|].
  destruct (getOffsetOfContig genome name) as [base|]; [|reflexivity].
  unfold ok, intervalOf, intervalLow, intervalHigh.
  cbn [offset1 offset2 offsetOfContig].
  now rewrite Z.min_comm, Z.max_comm.
Qed.

Lemma offsets_exchanged_witness :
  intervalOf
    (decodeId genome1
       (dialectId (str "chr_1") (str "100") (str "200") (str "0") (str "r")))
  = intervalOf
      (decodeId genome1
         (dialectId (str "chr_1") (str "200") (str "100") (str "0")
            (str "r"))).
Proof.
  apply (offsets_exchanged genome1 (str "chr_1") (str "100") (str "200")
           (str "0") (str "r")).
  - vm_compute. reflexivity.
  - discriminate.
  - discriminate.
Defined.

Lemma sscanf_d_number_then_text z g :
  LONG_MIN <= z <= LONG_MAX ->
  match g with [] => True | c :: _ => isdigit c = false end ->
  sscanf_d (print_d z ++ g) = Some (u32 z).
Proof.
  intros Hz. destruct g as [|c t]; intros Hc.
  { rewrite List.app_nil_r. now apply sscanf_d_print_d. }
  pose proof (sscanf_d_print_d z Hz) as P. revert P.
  destruct z as [|p|p].
  - intros _. change (print_d 0) with ["0"%char].
    unfold sscanf_d. cbn [app skip_space].
    change (isspace "0") with false. cbv iota.
    change (Ascii.eqb "0" "-") with false.
    change (Ascii.eqb "0" "+") with false. cbv iota beta.
    change (isdigit "0") with true. cbv iota beta.
    change ("0"%char :: c :: t) with (["0"%char] ++ c :: t).
    now rewrite (read_digits_stop ["0"%char] c t 0 Hc).
  - rewrite print_d_pos.
    destruct (chars_to_uint_cons p) as (c0 & r & -> & D).
    destruct (digit_no_space_no_sign c0 D) as (S1 & S2 & S3).
    unfold sscanf_d. cbn [app skip_space]. rewrite S1, S2, S3, D.
    change (c0 :: r ++ c :: t) with ((c0 :: r) ++ c :: t).
    now rewrite (read_digits_stop (c0 :: r) c t 0 Hc).
  - rewrite print_d_neg.
    destruct (chars_to_uint_cons p) as (c0 & r & -> & D).
    unfold sscanf_d. cbn [app skip_space].
    change (isspace "-") with false. cbv iota.
    change (Ascii.eqb "-" "-") with true. cbv iota beta.
    rewrite D.
    change (c0 :: r ++ c :: t) with ((c0 :: r) ++ c :: t).
    now rewrite (read_digits_stop (c0 :: r) c t 0 Hc).
Qed.

(** X9: An offset field is read by [%d]: a decimal number that fits a
    [long], followed by text that does not start with a digit, is read as
    that number, of which the low 32 bits are kept, the text being ignored,
    and the identifier decodes. *)
Theorem offset_field_with_text :
  forall genome name z1 g1 z2 g2 f3 rest base,
    dialectFields name (print_d z1 ++ g1) (print_d z2 ++ g2) f3 = true ->
    LONG_MIN <= z1 <= LONG_MAX ->
    LONG_MIN <= z2 <= LONG_MAX ->
    match g1 with [] => True | c :: _ => isdigit c = false end ->
    match g2 with [] => True | c :: _ => isdigit c = false end ->
    len name < contigNameMaxSize ->
    getOffsetOfContig genome name = Some base ->
    decodeId genome
      (dialectId name (print_d z1 ++ g1) (print_d z2 ++ g2) f3 rest)
    = ok {| contigName := name; offset1 := u32 z1; offset2 := u32 z2;
            offsetOfContig := base |}.
Proof.
  intros genome name z1 g1 z2 g2 f3 rest base HF Z1 Z2 H1 H2 Hl Hg.
  rewrite (decodeId_dialect _ _ _ _ _ _ HF). unfold dialectDecoding.
  rewrite (sscanf_d_number_then_text z1 g1 Z1 H1).
  rewrite (sscanf_d_number_then_text z2 g2 Z2 H2).
  destruct (print_d_cons z2) as (c & r & ->). cbn [app].
  destruct (Z.leb_spec contigNameMaxSize (len name)); [lia|].
  now rewrite Hg.
Qed.

Lemma offset_field_with_text_witness :
  decodeId genome1
    (dialectId (str "chr_1") (print_d 12 ++ str "abc") (print_d 34 ++ str " x")
       (str "0") (str "r"))
  = ok {| contigName := str "chr_1"; offset1 := u32 12; offset2 := u32 34;
          offsetOfContig := 0 |}.
Proof.
  apply (offset_field_with_text genome1 (str "chr_1") 12 (str "abc") 34
           (str " x") (str "0") (str "r") 0).
  - vm_compute. reflexivity.
  - vm_compute. split; discriminate.
  - vm_compute. split; discriminate.
  - vm_compute. reflexivity.
  - vm_compute. reflexivity.
  - vm_compute. reflexivity.
  - vm_compute. reflexivity.
Defined.

(** * Further properties of the misalignment test *)

Lemma verdict_decoded read genomeLocation genome maxK lowOut highOut mem d :
  getIdLength read <= 1023 ->
  decodeId genome (idBuffer read) = ok d ->
  verdict (wgsimReadMisaligned read genomeLocation genome maxK lowOut highOut
             mem)
  = Some (misaligned genomeLocation (intervalLow d) (intervalHigh d) maxK).
Proof.
  intros L D. now rewrite (wgsimReadMisaligned_short _ _ _ _ _ _ _ L), D.
Qed.

Lemma u32_add_u32_r a b : u32 (a + u32 b) = u32 (a + b).
Proof. unfold u32, modulus. apply Zplus_mod_idemp_r. Qed.

Lemma u32_add_u32_l a b : u32 (u32 a + b) = u32 (a + b).
Proof. unfold u32, modulus. apply Zplus_mod_idemp_l. Qed.

Lemma misaligned_no_wrap genomeLocation low high maxK :
  in_range (high + maxK) -> in_range (genomeLocation + maxK) ->
  misaligned genomeLocation low high maxK
  = ((high + maxK <? genomeLocation) || (genomeLocation + maxK <? low))%bool.
Proof.
  intros H1 H2. unfold misaligned.
  now rewrite !u32_add_u32_r, (u32_small _ H1), (u32_small _ H2).
Qed.

(** X10: With maxK = 0 no sum can wrap: the call returns true exactly when the
    location lies outside [low, high], for every unsigned location. *)
Theorem zero_tolerance_is_exact :
  forall read genomeLocation genome lowOut highOut mem d,
    getIdLength read <= 1023 ->
    decodeId genome (idBuffer read) = ok d ->
    in_range genomeLocation ->
    verdict (wgsimReadMisaligned read genomeLocation genome 0 lowOut highOut
               mem)
    = Some (negb ((intervalLow d <=? genomeLocation)
                  && (genomeLocation <=? intervalHigh d))).
Proof.
  intros read genomeLocation genome lowOut highOut mem d L D R.
  rewrite (verdict_decoded _ _ _ _ _ _ _ _ L D). f_equal.
  pose proof (intervalHigh_range d) as Rh.
  rewrite misaligned_no_wrap by (rewrite Z.add_0_r; assumption).
  rewrite !Z.add_0_r, negb_andb, orb_comm.
  now rewrite <- Z.ltb_antisym, <- Z.ltb_antisym.
Qed.

Lemma zero_tolerance_is_exact_witness :
  verdict (wgsimReadMisaligned read_100_200 100 genome1 0 None None mem0)
  = Some (negb ((intervalLow decoded_100_200 <=? 100)
                && (100 <=? intervalHigh decoded_100_200))).
Proof.
  apply (zero_tolerance_is_exact read_100_200 100 genome1 None None mem0
           decoded_100_200).
  - vm_compute. discriminate.
  - vm_compute. reflexivity.
  - unfold in_range, modulus. lia.
Defined.

(** X11: A larger tolerance never turns an aligned read into a misaligned one,
    as long as the sums with the larger tolerance do not wrap. *)
Theorem tolerance_is_monotone :
  forall read genomeLocation genome maxK maxK' lowOut highOut mem d,
    getIdLength read <= 1023 ->
    decodeId genome (idBuffer read) = ok d ->
    in_range genomeLocation ->
    0 <= maxK <= maxK' ->
    in_range (intervalHigh d + maxK') ->
    in_range (genomeLocation + maxK') ->
    verdict (wgsimReadMisaligned read genomeLocation genome maxK lowOut
               highOut mem) = Some false ->
    verdict (wgsimReadMisaligned read genomeLocation genome maxK' lowOut
               highOut mem) = Some false.
Proof.
  intros read genomeLocation genome maxK maxK' lowOut highOut mem d L D R K
    H1 H2.
  rewrite !(verdict_decoded _ _ _ _ _ _ _ _ L D).
  pose proof (intervalHigh_range d) as Rh.
  unfold in_range in *.
  rewrite (misaligned_no_wrap _ _ _ maxK) by (unfold in_range; lia).
  rewrite (misaligned_no_wrap _ _ _ maxK') by (unfold in_range; lia).
  intros [= E]. f_equal.
  apply orb_false_iff in E as [E1 E2].
  apply Z.ltb_ge in E1, E2.
  apply orb_false_iff. split; apply Z.ltb_ge; lia.
Qed.

Lemma tolerance_is_monotone_witness :
  verdict (wgsimReadMisaligned read_100_200 97 genome1 7 None None mem0)
  = Some false.
Proof.
  apply (tolerance_is_monotone read_100_200 97 genome1 3 7 None None mem0
           decoded_100_200).
  - vm_compute. discriminate.
  - vm_compute. reflexivity.
  - unfold in_range, modulus. lia.
  - lia.
  - vm_compute. split; discriminate || reflexivity.
  - vm_compute. split; discriminate || reflexivity.
  - vm_compute. reflexivity.
Defined.

(** X12: maxK is an [int]: a negative maxK is converted to [unsigned] by the
    additions, and the wrap-around makes it act as a negative tolerance.
    For every maxK of either sign, when high + maxK and
    genomeLocation + maxK are in the unsigned range the call returns true
    exactly when genomeLocation > high + maxK or
    genomeLocation + maxK < low. *)
Theorem signed_tolerance :
  forall read genomeLocation genome maxK lowOut highOut mem d,
    getIdLength read <= 1023 ->
    decodeId genome (idBuffer read) = ok d ->
    - 2 ^ 31 <= maxK < 2 ^ 31 ->
    in_range (intervalHigh d + maxK) ->
    in_range (genomeLocation + maxK) ->
    exists b,
      verdict (wgsimReadMisaligned read genomeLocation genome maxK lowOut
                 highOut mem) = Some b
      /\ (b = true
          <-> outsideTolerance genomeLocation (intervalLow d)
                (intervalHigh d) maxK).
Proof.
  intros read genomeLocation genome maxK lowOut highOut mem d L D K H1 H2.
  rewrite (verdict_decoded _ _ _ _ _ _ _ _ L D).
  eexists. split; [reflexivity|].
  rewrite (misaligned_no_wrap _ _ _ _ H1 H2).
  unfold outsideTolerance. rewrite orb_true_iff, !Z.ltb_lt. lia.
Qed.

Lemma signed_tolerance_witness :
  exists b,
    verdict (wgsimReadMisaligned read_100_200 200 genome1 (-1) None None mem0)
    = Some b
    /\ (b = true
        <-> outsideTolerance 200 (intervalLow decoded_100_200)
              (intervalHigh decoded_100_200) (-1)).
Proof.
  apply (signed_tolerance read_100_200 200 genome1 (-1) None None mem0
           decoded_100_200).
  - vm_compute. discriminate.
  - vm_compute. reflexivity.
  - lia.
  - vm_compute. split; discriminate || reflexivity.
  - vm_compute. split; discriminate || reflexivity.
Defined.

(** * Further properties of the generator *)

Lemma print_d_length_pos z : 1 <= len (print_d z).
Proof.
  destruct (print_d_cons z) as (c & r & ->). rewrite len_cons.
  pose proof (len_nonneg r). lia.
Qed.

(** X13: The room the generated identifier takes in [outputBuffer]: the contig
    name and between 22 and 42 characters more, the terminator not
    counted. *)
Theorem generated_size contig offsetInContig readLength firstHalf :
  len (c_str (name contig)) + 22
  <= len (wgsimGenerateIDString contig offsetInContig readLength firstHalf)
  <= len (c_str (name contig)) + 42.
Proof.
  pose proof (print_d_length (to_int (u32 (offsetInContig + 1)))) as L1.
  pose proof (print_d_length (to_int (u32 (offsetInContig + readLength))))
    as L2.
  pose proof (print_d_length_pos (to_int (u32 (offsetInContig + 1)))) as P1.
  pose proof (print_d_length_pos (to_int (u32 (offsetInContig + readLength))))
    as P2.
  pose proof (to_int_range _ (u32_range (offsetInContig + 1))) as R1.
  pose proof (to_int_range _ (u32_range (offsetInContig + readLength))) as R2.
  assert (L3 : len (print_d (if firstHalf then 1 else 2)) = 1)
    by (destruct firstHalf; reflexivity).
  unfold wgsimGenerateIDString. rewrite !len_app, L3.
  change (len (str "_")) with 1.
  change (len (str "_0::0:0_2:0:a0_0/")) with 17.
  change (2 ^ 31) with 2147483648 in *.
  change (2 ^ 32) with 4294967296 in *. lia.
Qed.

Lemma u32_add_cancel a b c :
  in_range a -> in_range b -> u32 (a + c) = u32 (b + c) -> a = b.
Proof.
  unfold in_range, u32, modulus. intros Ha Hb H.
  pose proof (Z.div_mod (a + c) (2 ^ 32)) as D1.
  pose proof (Z.div_mod (b + c) (2 ^ 32)) as D2.
  rewrite H in D1.
  change (2 ^ 32) with 4294967296 in *.
  assert (D : a - b
              = 4294967296 * ((a + c) / 4294967296 - (b + c) / 4294967296))
    by lia.
  lia.
Qed.

Lemma print_d_field_inj z z' t t' :
  LONG_MIN <= z <= LONG_MAX -> LONG_MIN <= z' <= LONG_MAX ->
  print_d z ++ "_"%char :: t = print_d z' ++ "_"%char :: t' ->
  u32 z = u32 z'.
Proof.
  intros Hz Hz' E. apply (f_equal sscanf_d) in E.
  rewrite !(sscanf_d_stop _ _ _ underscore_stops_number) in E.
  rewrite !sscanf_d_print_d in E by assumption. now injection E.
Qed.

(** X14: The generated identifier tells the reads of a contig apart: two
    identifiers generated for the same contig are equal only when the
    offsets in the contig, the read lengths and the halves are. *)
Theorem generated_identifier_unique :
  forall contig o l h o' l' h',
    in_range o -> in_range l -> in_range o' -> in_range l' ->
    wgsimGenerateIDString contig o l h = wgsimGenerateIDString contig o' l' h'
    -> o = o' /\ l = l' /\ h = h'.
Proof.
  intros contig o l h o' l' h' Ho Hl Ho' Hl' E.
  unfold wgsimGenerateIDString in E.
  apply app_inv_head in E. cbn [str list_ascii_of_string app] in E.
  injection E as E.
  pose proof (print_d_field_inj _ _ _ _
                (to_int_long _ (u32_range _)) (to_int_long _ (u32_range _)) E)
    as E1.
  rewrite !u32_to_int in E1 by apply u32_range.
  rewrite E1 in E. apply app_inv_head in E. injection E as E.
  pose proof (print_d_field_inj _ _ _ _
                (to_int_long _ (u32_range _)) (to_int_long _ (u32_range _)) E)
    as E2.
  rewrite !u32_to_int in E2 by apply u32_range.
  rewrite E2 in E. apply app_inv_head in E.
  injection E as E.
  assert (o = o') as <- by exact (u32_add_cancel _ _ _ Ho Ho' E1).
  assert (l = l') as <-.
  { apply (u32_add_cancel l l' o Hl Hl').
    now rewrite (Z.add_comm l), (Z.add_comm l'). }
  repeat split.
  destruct h, h'; (reflexivity || discriminate E).
Qed.

Lemma generated_identifier_unique_witness :
  99 = 99 /\ 101 = 101 /\ true = true.
Proof.
  apply (generated_identifier_unique chr_1 99 101 true 99 101 true);
    try (unfold in_range, modulus; lia).
  reflexivity.
Defined.

(** * The generator and the test together *)

Lemma absolute_first base genomeLocation :
  in_range genomeLocation ->
  absolute base (u32 (genomeLocation - base) + 1) = genomeLocation.
Proof.
  intros H. unfold absolute.
  replace (u32 (genomeLocation - base) + 1 + base - 1)
    with (u32 (genomeLocation - base) + base) by lia.
  rewrite u32_add_u32_l.
  replace (genomeLocation - base + base) with genomeLocation by lia.
  now apply u32_small.
Qed.

Lemma absolute_last base genomeLocation readLength :
  in_range (genomeLocation + readLength - 1) ->
  absolute base (u32 (genomeLocation - base) + readLength)
  = genomeLocation + readLength - 1.
Proof.
  intros H. unfold absolute.
  replace (u32 (genomeLocation - base) + readLength + base - 1)
    with (u32 (genomeLocation - base) + (readLength + base - 1)) by lia.
  rewrite u32_add_u32_l.
  replace (genomeLocation - base + (readLength + base - 1))
    with (genomeLocation + readLength - 1) by lia.
  now apply u32_small.
Qed.

Lemma decodeId_generated_genome genome getContigAtLocation genomeLocation
    readLength firstHalf :
  let contig := getContigAtLocation genomeLocation in
  lacks ":" (c_str (name contig)) = true ->
  len (c_str (name contig)) < contigNameMaxSize ->
  getOffsetOfContig genome (c_str (name contig))
  = Some (beginningOffset contig) ->
  getIdLength
    {| getId := wgsimGenerateIDString_genome getContigAtLocation
                  genomeLocation readLength firstHalf |} <= 1023
  /\ decodeId genome
       (idBuffer
          {| getId := wgsimGenerateIDString_genome getContigAtLocation
                        genomeLocation readLength firstHalf |})
     = ok {| contigName := c_str (name contig);
             offset1 := u32 (u32 (genomeLocation - beginningOffset contig)
                             + 1);
             offset2 := u32 (u32 (genomeLocation - beginningOffset contig)
                             + readLength);
             offsetOfContig := beginningOffset contig |}.
Proof.
  intros contig Hc Hl Hg. unfold wgsimGenerateIDString_genome. fold contig.
  pose proof (generated_length contig
                (u32 (genomeLocation - beginningOffset contig)) readLength
                firstHalf Hl) as L.
  split; [exact L|].
  rewrite idBuffer_whole by (exact L || apply generated_lacks_NUL).
  now apply decodeId_generated.
Qed.

(** X15: The identifier generated for a location of the genome decodes to the
    interval that starts at this location and has the length of the read:
    low = genomeLocation and high = genomeLocation + readLength - 1, when
    the genome finds, under the name of the contig of the location, the
    offset at which this contig begins, and the read ends within the
    unsigned range. *)
Theorem generated_at_location_round_trip :
  forall genome getContigAtLocation genomeLocation readLength firstHalf,
    let contig := getContigAtLocation genomeLocation in
    lacks ":" (c_str (name contig)) = true ->
    len (c_str (name contig)) < contigNameMaxSize ->
    getOffsetOfContig genome (c_str (name contig))
    = Some (beginningOffset contig) ->
    in_range genomeLocation ->
    1 <= readLength ->
    in_range (genomeLocation + readLength - 1) ->
    intervalOf
      (decodeId genome
         (idBuffer
            {| getId := wgsimGenerateIDString_genome getContigAtLocation
                          genomeLocation readLength firstHalf |}))
    = Some (genomeLocation, genomeLocation + readLength - 1).
Proof.
  intros genome getContigAtLocation genomeLocation readLength firstHalf contig
    Hc Hl Hg R1 Hr R2.
  destruct (decodeId_generated_genome genome getContigAtLocation
              genomeLocation readLength firstHalf Hc Hl Hg) as [_ D].
  rewrite D. unfold ok, intervalOf, intervalLow, intervalHigh.
  cbn [offset1 offset2 offsetOfContig]. fold contig.
  rewrite !absOffset_u32, (absolute_first _ _ R1), (absolute_last _ _ _ R2).
  f_equal. f_equal; lia.
Qed.

Lemma generated_at_location_round_trip_witness :
  intervalOf
    (decodeId genome2
       (idBuffer
          {| getId := wgsimGenerateIDString_genome contigAt2 1234 100 true |}))
  = Some (1234, 1234 + 100 - 1).
Proof.
  apply (generated_at_location_round_trip genome2 contigAt2 1234 100 true).
  - vm_compute. reflexivity.
  - vm_compute. reflexivity.
  - vm_compute. reflexivity.
  - unfold in_range, modulus. lia.
  - lia.
  - unfold in_range, modulus. lia.
Defined.

(** X16: A read generated at a location of the genome and aligned anywhere on
    its own interval is reported aligned, through the overload that takes
    the index, for every tolerance maxK >= 0 for which high + maxK stays in
    the unsigned range. *)
Theorem generated_read_is_aligned :
  forall index getContigAtLocation genomeLocation readLength firstHalf
         location maxK lowOut highOut mem,
    let contig := getContigAtLocation genomeLocation in
    lacks ":" (c_str (name contig)) = true ->
    len (c_str (name contig)) < contigNameMaxSize ->
    getOffsetOfContig (getGenome index) (c_str (name contig))
    = Some (beginningOffset contig) ->
    in_range genomeLocation ->
    1 <= readLength ->
    0 <= maxK ->
    in_range (genomeLocation + readLength - 1 + maxK) ->
    genomeLocation <= location <= genomeLocation + readLength - 1 ->
    verdict
      (wgsimReadMisaligned_index
         {| getId := wgsimGenerateIDString_genome getContigAtLocation
                       genomeLocation readLength firstHalf |}
         location index maxK lowOut highOut mem)
    = Some false.
Proof.
  intros index getContigAtLocation genomeLocation readLength firstHalf
    location maxK lowOut highOut mem contig Hc Hl Hg R1 Hr HK R2 Hloc.
  destruct (decodeId_generated_genome (getGenome index) getContigAtLocation
              genomeLocation readLength firstHalf Hc Hl Hg) as [L D].
  unfold wgsimReadMisaligned_index.
  rewrite (verdict_decoded _ _ _ _ _ _ _ _ L D). f_equal.
  unfold intervalLow, intervalHigh.
  cbn [offset1 offset2 offsetOfContig]. fold contig.
  unfold in_range in *.
  rewrite !absOffset_u32, (absolute_first _ _ R1),
    (absolute_last _ _ readLength) by (unfold in_range; lia).
  rewrite Z.min_l, Z.max_r by lia.
  rewrite misaligned_no_wrap by (unfold in_range; lia).
  apply orb_false_iff. split; apply Z.ltb_ge; lia.
Qed.

Lemma generated_read_is_aligned_witness :
  verdict
    (wgsimReadMisaligned_index
       {| getId := wgsimGenerateIDString_genome contigAt2 1234 100 true |}
       1300 index2 5 (Some 0) (Some 1) mem0)
  = Some false.
Proof.
  apply (generated_read_is_aligned index2 contigAt2 1234 100 true 1300 5
           (Some 0) (Some 1) mem0).
  - vm_compute. reflexivity.
  - vm_compute. reflexivity.
  - vm_compute. reflexivity.
  - unfold in_range, modulus. lia.
  - lia.
  - lia.
  - unfold in_range, modulus. lia.
  - lia.
Defined.

(** * The contig name *)

(** X17: The bound on the contig name: an identifier of the dialect whose offsets
    are read takes the exit of the contig name too big exactly when the
    name has 200 characters or more, and then the genome is not asked. *)
Theorem contig_name_bound genome name f1 f2 f3 rest o1 :
  dialectFields name f1 f2 f3 = true ->
  sscanf_d f1 = Some o1 ->
  (f2 = [] \/ sscanf_d f2 <> None) ->
  (decodeId genome (dialectId name f1 f2 f3 rest)
   = fail (ContigNameTooLong (dialectId name f1 f2 f3 rest))
   <-> contigNameMaxSize <= len name).
Proof.
  intros HF H1 H2. rewrite (decodeId_dialect _ _ _ _ _ _ HF).
  unfold dialectDecoding. rewrite H1.
  assert (E : exists o2,
             match f2 with [] => Some o1 | _ :: _ => sscanf_d f2 end
             = Some o2).
  { destruct H2 as [->|H2]; [now exists o1|].
    destruct f2; [now exists o1|].
    destruct (sscanf_d (a :: f2)) as [o2|]; [now exists o2 | contradiction]. }
  destruct E as [o2 ->].
  destruct (Z.leb_spec contigNameMaxSize (len name)) as [A|A].
  - split; [intros _; exact A | reflexivity].
  - split; [|lia].
    destruct (getOffsetOfContig genome name); discriminate.
Qed.

Lemma contig_name_bound_witness :
  decodeId genome_200
    (dialectId (repeat "a"%char 200) (str "1") (str "1") (str "0") (str "r"))
  = fail (ContigNameTooLong
            (dialectId (repeat "a"%char 200) (str "1") (str "1") (str "0")
               (str "r")))
  <-> contigNameMaxSize <= len (repeat "a"%char 200).
Proof.
  apply (contig_name_bound genome_200 (repeat "a"%char 200) (str "1")
           (str "1") (str "0") (str "r") 1).
  - vm_compute. reflexivity.
  - vm_compute. reflexivity.
  - right. vm_compute. discriminate.
Defined.

(** X18: A colon in the contig name breaks the round trip: when the name of the
    contig has a colon with fewer than three underscores before it, the
    generated identifier takes one of the exits of the missing underscore,
    for the decoder stops at the colon of the name. *)
Theorem colon_in_contig_name :
  forall genome contig offsetInContig readLength firstHalf pre post,
    c_str (name contig) = pre ++ ":"%char :: post ->
    lacks ":" pre = true ->
    (underscoresIn pre < 3)%nat ->
    match
      decodeId genome
        (wgsimGenerateIDString contig offsetInContig readLength firstHalf)
    with
    | inl e => missingUnderscore (kindOf e) = true
    | inr _ => False
    end.
Proof.
  intros genome contig offsetInContig readLength firstHalf pre post E Hc Hu.
  unfold wgsimGenerateIDString. rewrite E, <- app_assoc.
  cbn [app].
  match goal with
  | |- context [decodeId _ (pre ++ ":"%char :: ?r)] => set (rest := r)
  end.
  pose proof (findUnderscores_scanFailure (pre ++ ":"%char :: rest)) as A.
  unfold scanFailure in A. rewrite (beforeFirstColon_found pre rest Hc) in A.
  unfold decodeId.
  destruct (underscoresIn pre) as [|[|[|n]]]; [| | |lia];
    rewrite A; reflexivity.
Qed.

Lemma colon_in_contig_name_witness :
  match
    decodeId (genomeOf [{| name := str "HLA-A*01:01"; beginningOffset := 0 |}])
      (wgsimGenerateIDString
         {| name := str "HLA-A*01:01"; beginningOffset := 0 |} 99 101 true)
  with
  | inl e => missingUnderscore (kindOf e) = true
  | inr _ => False
  end.
Proof.
  apply (colon_in_contig_name
           (genomeOf [{| name := str "HLA-A*01:01"; beginningOffset := 0 |}])
           {| name := str "HLA-A*01:01"; beginningOffset := 0 |} 99 101 true
           (str "HLA-A*01") (str "01")).
  - vm_compute. reflexivity.
  - vm_compute. reflexivity.
  - vm_compute. lia.
Defined.
